(** * libdnf::rpm signature checking and key import (rpm_signature.cpp)

    A shallow embedding of [libdnf/rpm/rpm_signature.cpp]: the [KeyInfo]
    constructor, [RpmSignature::create_transaction],
    [RpmSignature::check_package_signature], [RpmSignature::rpmdb_lookup],
    [RpmSignature::key_present] and [RpmSignature::import_key].

    The rpm library, the downloader, the key-info extractor and the file
    system are collaborators of that file: what they answer is a parameter
    ([Engine]), what they change is the [World], and every call made to them
    is recorded, in order, in the [calls] of an [Outcome]. *)

From Stdlib Require Import String Ascii List ZArith NArith Bool Lia.
From Stdlib Require Import Sorting.Permutation.
From Stdlib Require Import Strings.Byte.
Import ListNotations.

Local Open Scope string_scope.
Local Open Scope list_scope.

(* ================================================================== *)
(** ** std::string and std::string_view *)

(** [s.substr(pos)]: the characters of [s] from [pos] to the end. *)
Definition substr (s : string) (pos : nat) : string :=
  substring pos (String.length s - pos) s.

(** [s.starts_with(x)]: [size() >= x.size() && compare(0, x.size(), x) == 0]. *)
Definition starts_with (s x : string) : bool :=
  (String.length x <=? String.length s)%nat
  && (substring 0 (String.length x) s =? x)%string.

(** [s.ends_with(x)]:
    [size() >= x.size() && compare(size() - x.size(), npos, x) == 0]. *)
Definition ends_with (s x : string) : bool :=
  (String.length x <=? String.length s)%nat
  && (substring (String.length s - String.length x) (String.length x) s =? x)%string.

(** [s.find(pat)] searched from [pos]; [None] is [std::string::npos]. *)
Fixpoint find_from (s pat : string) (pos : nat) : option nat :=
  if starts_with s pat then Some pos
  else match s with
       | EmptyString => None
       | String _ s' => find_from s' pat (S pos)
       end.

Definition find (s pat : string) : option nat := find_from s pat 0.

(** The double quote character, for the messages that quote their argument. *)
Definition dquote : string := String (ascii_of_nat 34) EmptyString.

(* ================================================================== *)
(** ** Data of the rpm library and of libdnf *)

(** A header of the rpm database, with the tags the code reads. *)
Record Header := mkHeader {
  RPMTAG_NAME : string;
  RPMTAG_VERSION : string;
  RPMTAG_RELEASE : string
}.

(** [rpmts_s]: the state of one rpm transaction set (a verification session). *)
Record rpmts_s := mkTs {
  ts_rootDir : option string;
  ts_vfylevel : option Z
}.

(** One identity found in a raw key ([repo::Key]). *)
Record Key := mkKey {
  get_id : string;
  get_user_id : string;
  get_fingerprint : string
}.

(** [libdnf::repo::Repo::Type]. *)
Inductive RepoType := AVAILABLE | SYSTEM | COMMANDLINE.

Record Repo := mkRepo {
  get_type : RepoType;
  gpgcheck : bool
}.

Record Package := mkPackage {
  get_repo : Repo;
  get_package_path : string
}.

(** The two options of the base configuration that the file reads. *)
Record Base := mkBase {
  installroot : string;
  localpkg_gpgcheck : bool
}.

(** [RpmSignature::CheckResult]. *)
Inductive CheckResult :=
| OK
| FAILED_KEY_MISSING
| FAILED_NOT_TRUSTED
| FAILED_NOT_SIGNED
| FAILED.

(** [rpm::KeyInfo]: the members set by the constructor. *)
Record KeyInfo := mkKeyInfo {
  key_url : string;
  key_path : string;
  key_id : string;
  user_id : string;
  fingerprint : string;
  pkt_ptr : list byte;
  pkt_len : N
}.

Definition get_url (key : KeyInfo) : string := key_url key.
Definition get_pkt (key : KeyInfo) : list byte := pkt_ptr key.
Definition get_pkt_len (key : KeyInfo) : N := pkt_len key.

(** Exceptions that leave the functions of the file. The two libdnf errors
    carry their format string and its argument. *)
Inductive Exn :=
| KeyImportError (format arg : string)
| SignatureCheckError (format arg : string)
| FileSystemError (path : string)
| FileDownloadError (url : string).

(** Constants of the rpm headers. *)
Definition RPMRC_OK : Z := 0.
Definition PGPARMOR_PUBKEY : Z := 2.
Definition RPMSIG_SIGNATURE_TYPE : Z := Z.shiftl 1 1.
Definition RPMLOG_INFO : Z := 6.
Definition RPMLOG_PRI (p : Z) : Z := Z.land p 7.
Definition RPMLOG_UPTO (pri : Z) : Z := Z.shiftl 1 (pri + 1) - 1.

(** What the collaborators answer. Nothing is assumed about them. *)
Record Engine := mkEngine {
  (** [rpmtsSetRootDir]: 0 when the root is accepted. *)
  engine_set_root : string -> Z;
  (** [rpmcliVerifySignatures] on one path for a session, under a log mask:
      the return code and the log lines it emits. *)
  engine_verify : rpmts_s -> Z -> string -> Z * list string;
  (** [rpmtsImportPubkey]: the return code and the database afterwards. *)
  engine_import : rpmts_s -> list Header -> list byte -> N -> Z * list Header;
  (** [utils::url::is_url]. *)
  is_url : string -> bool;
  (** The downloader: the content behind a url, [None] when the transfer fails. *)
  engine_fetch : string -> option (list byte);
  (** The path that [TempFile] picks for a name prefix. *)
  engine_mkstemp : string -> string;
  (** [repo::RepoGpgme::rawkey2infos] on the content of the open file. *)
  engine_rawkey2infos : list byte -> list Key;
  (** [pgpReadPkts] on what is at the path: the armor type and the packet. *)
  engine_pgpReadPkts : option (list byte) -> Z * list byte
}.

(** The state the functions work on. *)
Record World := mkWorld {
  (** the log mask of the rpm library *)
  log_mask : Z;
  (** the rpm database under the install root *)
  rpmdb : list Header;
  (** the lines collected by the live [RpmLogGuardStrings] *)
  rpm_logs : list string;
  (** the files, by path *)
  files : string -> option (list byte)
}.

(** Calls to the collaborators, as they happen. *)
Inductive Event :=
| RpmLogGuard_acquire
| RpmLogGuard_release
| Call_rpmtsCreate
| Call_rpmtsFree
| Call_rpmtsSetRootDir (root : string) (rc : Z)
| Call_rpmlogSetMask (mask : Z)
| Call_rpmtsSetVfyLevel (level : Z)
| Call_rpmcliVerifySignatures (mask : Z) (path : string) (rc : Z) (logs : list string)
| Call_rpmtsInitIterator (key : string)
| Call_rpmdbNextIterator
| Call_rpmdbFreeIterator
| Call_rpmtsImportPubkey (pkt : list byte) (pktlen : N) (rc : Z)
| TempFile_created (path : string)
| TempFile_removed (path : string)
| Call_download (url dest : string)
| Call_File_open (path : string)
| Call_rawkey2infos (path : string) (infos : list Key)
| Call_pgpReadPkts (path : string) (armor : Z) (pkt : list byte).

(* ================================================================== *)
(** ** Computations: state, exceptions and the record of calls *)

Inductive Result (A : Type) :=
| Ret (a : A)
| Throw (e : Exn).
Arguments Ret {A} a.
Arguments Throw {A} e.

Record Outcome (A : Type) := mkOutcome {
  result : Result A;
  world : World;
  calls : list Event
}.
Arguments mkOutcome {A} _ _ _.
Arguments result {A} _.
Arguments world {A} _.
Arguments calls {A} _.

Definition M (A : Type) : Type := World -> Outcome A.

Definition ret {A} (a : A) : M A := fun w => mkOutcome (Ret a) w [].

Definition throw {A} (e : Exn) : M A := fun w => mkOutcome (Throw e) w [].

Definition bind {A B} (m : M A) (k : A -> M B) : M B := fun w =>
  match m w with
  | mkOutcome (Ret a) w1 c1 =>
      match k a w1 with
      | mkOutcome r w2 c2 => mkOutcome r w2 (c1 ++ c2)
      end
  | mkOutcome (Throw e) w1 c1 => mkOutcome (Throw e) w1 c1
  end.

(** A destructor that runs when the scope of [body] is left, by a return
    or by an exception. *)
Definition at_scope_exit {A} (dtor : M unit) (body : M A) : M A := fun w =>
  match body w with
  | mkOutcome r w1 c1 =>
      match dtor w1 with
      | mkOutcome _ w2 c2 => mkOutcome r w2 (c1 ++ c2)
      end
  end.

Declare Scope cxx_scope.
Delimit Scope cxx_scope with cxx.
Notation "x <- m ;; k" := (bind m (fun x => k))
  (at level 61, m at next level, right associativity) : cxx_scope.
Notation "m ;;; k" := (bind m (fun _ => k))
  (at level 61, right associativity) : cxx_scope.
Local Open Scope cxx_scope.

Definition emit (e : Event) : M unit := fun w => mkOutcome (Ret tt) w [e].

Definition set_log_mask (mask : Z) (w : World) : World :=
  mkWorld mask (rpmdb w) (rpm_logs w) (files w).

Definition set_rpmdb (db : list Header) (w : World) : World :=
  mkWorld (log_mask w) db (rpm_logs w) (files w).

Definition set_rpm_logs (logs : list string) (w : World) : World :=
  mkWorld (log_mask w) (rpmdb w) logs (files w).

Definition set_files (f : string -> option (list byte)) (w : World) : World :=
  mkWorld (log_mask w) (rpmdb w) (rpm_logs w) f.

Definition write_file (p : string) (c : option (list byte))
    (f : string -> option (list byte)) : string -> option (list byte) :=
  fun q => if (q =? p)%string then c else f q.

(* ================================================================== *)
(** ** The calls to the collaborators *)

Section Program.

Variable eng : Engine.
Variable base : Base.

(** [rpmtsCreate()]: a fresh session, nothing set. *)
Definition rpmtsCreate : M rpmts_s := fun w =>
  mkOutcome (Ret (mkTs None None)) w [Call_rpmtsCreate].

(** [ts_deleter]: [rpmtsFree(ts)]. *)
Definition rpmtsFree (ts : rpmts_s) : M unit := emit Call_rpmtsFree.

Definition rpmtsSetRootDir (ts : rpmts_s) (root_dir : string) : M (Z * rpmts_s) := fun w =>
  let rc := engine_set_root eng root_dir in
  mkOutcome
    (Ret (rc, if (rc =? 0)%Z then mkTs (Some root_dir) (ts_vfylevel ts) else ts))
    w [Call_rpmtsSetRootDir root_dir rc].

(** [rpmlogSetMask(mask)]: sets the mask and returns the one before. *)
Definition rpmlogSetMask (mask : Z) : M Z := fun w =>
  mkOutcome (Ret (log_mask w)) (set_log_mask mask w) [Call_rpmlogSetMask mask].

Definition rpmtsSetVfyLevel (ts : rpmts_s) (level : Z) : M rpmts_s := fun w =>
  mkOutcome (Ret (mkTs (ts_rootDir ts) (Some level))) w [Call_rpmtsSetVfyLevel level].

(** [rpmcliVerifySignatures(ts, {path, NULL})]: the lines it logs under the
    mask in force reach the live log guard. *)
Definition rpmcliVerifySignatures (ts : rpmts_s) (path : string) : M Z := fun w =>
  let r := engine_verify eng ts (log_mask w) path in
  mkOutcome (Ret (fst r)) (set_rpm_logs (rpm_logs w ++ snd r) w)
    [Call_rpmcliVerifySignatures (log_mask w) path (fst r) (snd r)].

(** [rpmtsInitIterator(ts, RPMDBI_NAME, key, 0)]: the headers of that name. *)
Definition rpmtsInitIterator (ts : rpmts_s) (key : string) : M (list Header) := fun w =>
  mkOutcome (Ret (filter (fun h => (RPMTAG_NAME h =? key)%string) (rpmdb w))) w
    [Call_rpmtsInitIterator key].

Definition headerGetAsString (h : Header) (tag : Header -> string) : string := tag h.

Definition rpmdbFreeIterator : M unit := emit Call_rpmdbFreeIterator.

Definition rpmtsImportPubkey (ts : rpmts_s) (pkt : list byte) (pktlen : N) : M Z := fun w =>
  let r := engine_import eng ts (rpmdb w) pkt pktlen in
  mkOutcome (Ret (fst r)) (set_rpmdb (snd r) w) [Call_rpmtsImportPubkey pkt pktlen (fst r)].

(** Modelled from the spec: [RpmLogGuardStrings] (rpm/rpm_log_guard.hpp is
    not among the sources). A scoped capture of the log of the engine: it
    takes the log, starts with no line collected, collects every line logged
    while it lives and gives the log back when destroyed. *)
Definition RpmLogGuardStrings_ctor : M unit := fun w =>
  mkOutcome (Ret tt) (set_rpm_logs [] w) [RpmLogGuard_acquire].

Definition RpmLogGuardStrings_dtor : M unit := emit RpmLogGuard_release.

Definition get_rpm_logs : M (list string) := fun w => mkOutcome (Ret (rpm_logs w)) w [].

(** Modelled from the spec: [RpmLogGuard{base}] (rpm/rpm_log_guard.hpp is not
    among the sources). The same scoped capture, kept only to hold the log
    of the engine for the time of the operation. *)
Definition RpmLogGuard_ctor : M unit := emit RpmLogGuard_acquire.
Definition RpmLogGuard_dtor : M unit := emit RpmLogGuard_release.

(** Modelled from the spec: [utils::fs::TempFile] (utils/fs/temp.hpp is not
    among the sources). A uniquely named temporary file, created by the
    constructor and deleted when its owner's lifetime ends. *)
Definition TempFile_ctor (name_prefix : string) : M string := fun w =>
  let p := engine_mkstemp eng name_prefix in
  mkOutcome (Ret p) (set_files (write_file p (Some []) (files w)) w) [TempFile_created p].

Definition TempFile_dtor (p : string) : M unit := fun w =>
  mkOutcome (Ret tt) (set_files (write_file p None (files w)) w) [TempFile_removed p].

(** Modelled from the spec: [repo::FileDownloader] (not among the sources),
    [add(url, dest)] then [download(true, true)]. It writes the content
    behind the url to [dest], or fails the operation on a transport error. *)
Definition download (url dest : string) : M unit := fun w =>
  match engine_fetch eng url with
  | Some c =>
      mkOutcome (Ret tt) (set_files (write_file dest (Some c) (files w)) w)
        [Call_download url dest]
  | None => mkOutcome (Throw (FileDownloadError url)) w [Call_download url dest]
  end.

(** Modelled from the spec: [utils::fs::File key_file(path, r)] (not among the
    sources). An unreadable file is an I/O failure that propagates. *)
Definition File_open (path : string) : M (list byte) := fun w =>
  match files w path with
  | Some c => mkOutcome (Ret c) w [Call_File_open path]
  | None => mkOutcome (Throw (FileSystemError path)) w [Call_File_open path]
  end.

(** [repo::RepoGpgme::rawkey2infos(key_file.get_fd())]: the identities the
    extractor finds in the open file. *)
Definition rawkey2infos (path : string) (content : list byte) : M (list Key) := fun w =>
  let infos := engine_rawkey2infos eng content in
  mkOutcome (Ret infos) w [Call_rawkey2infos path infos].

(** [pgpReadPkts(path, &pkt, &pkt_len)]: the armor type found in the file at
    the path, and the packet. *)
Definition pgpReadPkts (path : string) : M (Z * list byte) := fun w =>
  let r := engine_pgpReadPkts eng (files w path) in
  mkOutcome (Ret r) w [Call_pgpReadPkts path (fst r) (snd r)].

(* ================================================================== *)
(** ** rpm_signature.cpp *)

Definition not_armored_msg : string :=
  dquote ++ "{}" ++ dquote ++ ": key is not an armored public key.".

Definition rootdir_msg : string :=
  "Failed to set rpm transaction rootDir " ++ dquote ++ "{}" ++ dquote ++ ".".

Definition import_failed_msg : string :=
  "Failed to import public key " ++ dquote ++ "{}" ++ dquote ++ " to rpmdb.".

(** The loop over [rawkey2infos]: each identity overwrites the members. *)
Definition last_identity (infos : list Key) : string * string * string :=
  fold_left
    (fun (_ : string * string * string) key_info =>
       (get_id key_info, get_user_id key_info, get_fingerprint key_info))
    infos (EmptyString, EmptyString, EmptyString).

(** Lines 63 to 75 of the constructor, once [key_path] is known. *)
Definition KeyInfo_read (url path : string) : M KeyInfo :=
  content <- File_open path ;;
  infos <- rawkey2infos path content ;;
  let ids := last_identity infos in
  r <- pgpReadPkts path ;;
  if negb (fst r =? PGPARMOR_PUBKEY)%Z then
    (* free(pkt) *)
    throw (KeyImportError not_armored_msg url)
  else
    ret (mkKeyInfo url path (fst (fst ids)) (snd (fst ids)) (snd ids)
           (snd r) (N.of_nat (List.length (snd r)))).

(** [KeyInfo::KeyInfo(key_url, base)]. [downloaded_key] is a local of the
    constructor: its file is deleted when the constructor is left. *)
Definition KeyInfo_ctor (url : string) : M KeyInfo :=
  if is_url eng url then
    if starts_with url "file://" then
      KeyInfo_read url (substr url 7)
    else
      tmp <- TempFile_ctor "rpmkey" ;;
      at_scope_exit (TempFile_dtor tmp)
        (download url tmp ;;;
         KeyInfo_read url tmp)
  else
    KeyInfo_read url url.

(** [KeyInfo::~KeyInfo]: the members are destroyed; [pkt_deleter] frees the
    packet. No call to a collaborator is left to make. *)
Definition KeyInfo_dtor (key : KeyInfo) : M unit := ret tt.

Definition get_short_key_id (key : KeyInfo) : string :=
  if (8 <? String.length (key_id key))%nat
  then substr (key_id key) (String.length (key_id key) - 8)
  else key_id key.

(** [RpmSignature::create_transaction]. When it throws, its [ts_ptr] is
    destroyed on the way out. *)
Definition create_transaction : M rpmts_s :=
  ts <- rpmtsCreate ;;
  let root_dir := installroot base in
  r <- rpmtsSetRootDir ts root_dir ;;
  if negb (fst r =? 0)%Z then
    at_scope_exit (rpmtsFree ts) (throw (SignatureCheckError rootdir_msg root_dir))
  else
    ret (snd r).

(** Lines 165 to 172: the verdict once every line has been read. *)
Definition final_verdict (missing_key not_trusted not_signed : bool) : CheckResult :=
  if not_trusted then FAILED_NOT_TRUSTED
  else if missing_key then FAILED_KEY_MISSING
  else if not_signed then FAILED_NOT_SIGNED
  else FAILED.

(** The loop of lines 147 to 164 over the collected lines. *)
Fixpoint scan_rpm_logs (path : string) (logs : list string)
    (missing_key not_trusted not_signed : bool) : CheckResult :=
  match logs with
  | [] => final_verdict missing_key not_trusted not_signed
  | line :: rest =>
      if starts_with line path then
        scan_rpm_logs path rest missing_key not_trusted not_signed
      else if match find line ": BAD" with Some _ => true | None => false end then
        FAILED
      else if ends_with line ": NOKEY" then
        scan_rpm_logs path rest true not_trusted not_signed
      else if ends_with line ": NOTTRUSTED" then
        scan_rpm_logs path rest missing_key true not_signed
      else if ends_with line ": NOTFOUND" then
        scan_rpm_logs path rest missing_key not_trusted true
      else if negb (ends_with line ": OK") then
        FAILED
      else
        scan_rpm_logs path rest missing_key not_trusted not_signed
  end.

(** Lines 116 to 173: what runs once the check is required. *)
Definition verify_and_classify (pkg : Package) : M CheckResult :=
  RpmLogGuardStrings_ctor ;;;
  at_scope_exit RpmLogGuardStrings_dtor
    (ts_ptr <- create_transaction ;;
     at_scope_exit (rpmtsFree ts_ptr)
       (oldmask <- rpmlogSetMask (RPMLOG_UPTO (RPMLOG_PRI RPMLOG_INFO)) ;;
        ts <- rpmtsSetVfyLevel ts_ptr RPMSIG_SIGNATURE_TYPE ;;
        let path := get_package_path pkg in
        rc <- rpmcliVerifySignatures ts path ;;
        rpmlogSetMask oldmask ;;;
        if (rc =? RPMRC_OK)%Z then ret OK
        else
          logs <- get_rpm_logs ;;
          ret (scan_rpm_logs path logs false false false))).

Definition is_commandline (t : RepoType) : bool :=
  match t with COMMANDLINE => true | _ => false end.

(** [RpmSignature::check_package_signature]. *)
Definition check_package_signature (pkg : Package) : M CheckResult :=
  let repo := get_repo pkg in
  if is_commandline (get_type repo) then
    if negb (localpkg_gpgcheck base) then ret OK
    else verify_and_classify pkg
  else
    if negb (gpgcheck repo) then ret OK
    else verify_and_classify pkg.

(** The [while] loop of [rpmdb_lookup] over the iterator [mi]. *)
Fixpoint rpmdb_lookup_loop (mi : list Header) (key_id : string) : M bool :=
  match mi with
  | [] => emit Call_rpmdbNextIterator ;;; ret false
  | h :: mi' =>
      emit Call_rpmdbNextIterator ;;;
      if (headerGetAsString h RPMTAG_VERSION =? key_id)%string then ret true
      else rpmdb_lookup_loop mi' key_id
  end.

(** [RpmSignature::rpmdb_lookup]. *)
Definition rpmdb_lookup (ts_ptr : rpmts_s) (key : KeyInfo) : M bool :=
  mi <- rpmtsInitIterator ts_ptr "gpg-pubkey" ;;
  let key_id := get_short_key_id key in
  retval <- rpmdb_lookup_loop mi key_id ;;
  rpmdbFreeIterator ;;;
  ret retval.

(** [RpmSignature::key_present]. *)
Definition key_present (key : KeyInfo) : M bool :=
  RpmLogGuard_ctor ;;;
  at_scope_exit RpmLogGuard_dtor
    (ts_ptr <- create_transaction ;;
     at_scope_exit (rpmtsFree ts_ptr)
       (rpmdb_lookup ts_ptr key)).

(** [RpmSignature::import_key]. *)
Definition import_key (key : KeyInfo) : M bool :=
  RpmLogGuard_ctor ;;;
  at_scope_exit RpmLogGuard_dtor
    (ts_ptr <- create_transaction ;;
     at_scope_exit (rpmtsFree ts_ptr)
       (found <- rpmdb_lookup ts_ptr key ;;
        if negb found then
          rc <- rpmtsImportPubkey ts_ptr (get_pkt key) (get_pkt_len key) ;;
          if negb (rc =? RPMRC_OK)%Z then
            throw (KeyImportError import_failed_msg (get_url key))
          else ret true
        else ret false)).

End Program.

(* ================================================================== *)
(** ** Vocabulary of the properties *)

Local Open Scope string_scope.

(** [s] begins with [x]. *)
Definition begins_with (s x : string) : Prop := exists t, s = x ++ t.

(** [s] ends with [x]. *)
Definition has_suffix (s x : string) : Prop := exists t, s = t ++ x.

(** [x] occurs somewhere in [s]. *)
Definition contains (s x : string) : Prop := exists a b, s = a ++ x ++ b.

(** A header line echoes the path of the package; every other line of the
    log is a finding. *)
Definition finding (path line : string) : Prop := ~ begins_with line path.

(** The line ends with one of the four outcomes the loop knows. *)
Definition recognized (line : string) : Prop :=
  has_suffix line ": OK" \/ has_suffix line ": NOKEY"
  \/ has_suffix line ": NOTTRUSTED" \/ has_suffix line ": NOTFOUND".

(** Some finding of the log ends with [suffix]. *)
Definition some_finding_ends (path : string) (logs : list string) (suffix : string) : Prop :=
  exists line, In line logs /\ finding path line /\ has_suffix line suffix.

(** Some line of the log, header or not, ends with [suffix]. *)
Definition some_line_ends (logs : list string) (suffix : string) : Prop :=
  exists line, In line logs /\ has_suffix line suffix.

(** The policy of lines 95 to 105: is the check required for this package? *)
Definition gpgcheck_required (base : Base) (pkg : Package) : bool :=
  if is_commandline (get_type (get_repo pkg)) then localpkg_gpgcheck base
  else gpgcheck (get_repo pkg).

(** The mask in force while the engine verifies. *)
Definition elevated_mask : Z := RPMLOG_UPTO (RPMLOG_PRI RPMLOG_INFO).

(** A finding that ends with [suffix], as the loop tests it. *)
Definition finding_ends_b (path suffix line : string) : bool :=
  negb (starts_with line path) && ends_with line suffix.

(** The session that [check_package_signature] hands to the engine. *)
Definition verify_session (base : Base) : rpmts_s :=
  mkTs (Some (installroot base)) (Some RPMSIG_SIGNATURE_TYPE).

(** The session of [key_present] and [import_key]. *)
Definition lookup_session (base : Base) : rpmts_s :=
  mkTs (Some (installroot base)) None.

(** The records that [rpmdb_lookup] iterates over. *)
Definition pubkey_records (db : list Header) : list Header :=
  filter (fun h => (RPMTAG_NAME h =? "gpg-pubkey")%string) db.

(** Some trusted-key record carries the short id of the key. *)
Definition trusted (db : list Header) (key : KeyInfo) : Prop :=
  exists h, In h db /\ RPMTAG_NAME h = "gpg-pubkey"
            /\ RPMTAG_VERSION h = get_short_key_id key.

(** A url that names neither a local path nor a [file://] location. *)
Definition remote_url (eng : Engine) (url : string) : Prop :=
  is_url eng url = true /\ starts_with url "file://" = false.

(** The answer of the engine to the one verify call of a check. *)
Definition engine_answer (eng : Engine) (base : Base) (pkg : Package) : Z * list string :=
  engine_verify eng (verify_session base) elevated_mask (get_package_path pkg).

(** The calls of a check that reaches the engine, which answers [r]. *)
Definition verification_calls (base : Base) (pkg : Package) (old_mask : Z)
    (r : Z * list string) : list Event :=
  [ RpmLogGuard_acquire; Call_rpmtsCreate;
    Call_rpmtsSetRootDir (installroot base) 0;
    Call_rpmlogSetMask elevated_mask;
    Call_rpmtsSetVfyLevel RPMSIG_SIGNATURE_TYPE;
    Call_rpmcliVerifySignatures elevated_mask (get_package_path pkg) (fst r) (snd r);
    Call_rpmlogSetMask old_mask;
    Call_rpmtsFree; RpmLogGuard_release ]%list.

(** The calls of an operation whose session does not take the install root. *)
Definition refused_root_calls (root : string) (rc : Z) : list Event :=
  [ RpmLogGuard_acquire; Call_rpmtsCreate; Call_rpmtsSetRootDir root rc;
    Call_rpmtsFree; RpmLogGuard_release ]%list.

(** The policy as the text has it: the check is switched off for the package. *)
Definition gpgcheck_off (base : Base) (pkg : Package) : Prop :=
  (get_type (get_repo pkg) = COMMANDLINE /\ localpkg_gpgcheck base = false)
  \/ (get_type (get_repo pkg) <> COMMANDLINE /\ gpgcheck (get_repo pkg) = false).

(** No call to the verify entry point of the engine. *)
Definition never_verifies (cs : list Event) : Prop :=
  forall mask path rc logs, ~ In (Call_rpmcliVerifySignatures mask path rc logs) cs.

(** No call to the key import of the engine. *)
Definition never_imports (cs : list Event) : Prop :=
  forall pkt len rc, ~ In (Call_rpmtsImportPubkey pkt len rc) cs.

(** The calls to the key import found in a record of calls, in order. *)
Fixpoint import_calls (cs : list Event) : list (list byte * N * Z) :=
  match cs with
  | []%list => []%list
  | (Call_rpmtsImportPubkey pkt len rc :: cs')%list => ((pkt, len, rc) :: import_calls cs')%list
  | (_ :: cs')%list => import_calls cs'
  end.

(** How many times the iterator is advanced. *)
Fixpoint next_calls (cs : list Event) : nat :=
  match cs with
  | []%list => 0
  | (Call_rpmdbNextIterator :: cs')%list => S (next_calls cs')
  | (_ :: cs')%list => next_calls cs'
  end.

(** The record carries the short id of the key in its version. *)
Definition matches_b (key_id : string) (h : Header) : bool :=
  (RPMTAG_VERSION h =? key_id)%string.

(** The calls of a lookup that advances the iterator [n] times, followed by
    what the operation does with the session still open. *)
Definition lookup_calls (root : string) (n : nat) (then_ : list Event) : list Event :=
  ([ RpmLogGuard_acquire; Call_rpmtsCreate; Call_rpmtsSetRootDir root 0;
     Call_rpmtsInitIterator "gpg-pubkey" ]
   ++ repeat Call_rpmdbNextIterator n
   ++ [ Call_rpmdbFreeIterator ] ++ then_
   ++ [ Call_rpmtsFree; RpmLogGuard_release ])%list.

(** The iterator stops at the first record that matches: [n] advances reach
    it, or [n] advances run through all the records and find the end. *)
Definition stops_at_first_match (records : list Header) (key_id : string) (n : nat) : Prop :=
  (exists before h after,
      records = (before ++ h :: after)%list
      /\ RPMTAG_VERSION h = key_id
      /\ (forall h', In h' before -> RPMTAG_VERSION h' <> key_id)
      /\ n = S (List.length before))
  \/ ((forall h', In h' records -> RPMTAG_VERSION h' <> key_id)
      /\ n = S (List.length records)).

(** The key that the constructor builds from what it read at [path]. *)
Definition key_read (eng : Engine) (url path : string) (content : list byte) : KeyInfo :=
  let ids := last_identity (engine_rawkey2infos eng content) in
  let r := engine_pgpReadPkts eng (Some content) in
  mkKeyInfo url path (fst (fst ids)) (snd (fst ids)) (snd ids)
    (snd r) (N.of_nat (List.length (snd r))).

(** The calls of the constructor on an open file. *)
Definition read_calls (eng : Engine) (path : string) (content : list byte) : list Event :=
  [ Call_File_open path;
    Call_rawkey2infos path (engine_rawkey2infos eng content);
    Call_pgpReadPkts path (fst (engine_pgpReadPkts eng (Some content)))
      (snd (engine_pgpReadPkts eng (Some content))) ]%list.



(** The armor reader ran during the construction and answered [armor]. *)
Definition armor_read (cs : list Event) (armor : Z) (pkt : list byte) : Prop :=
  exists path, In (Call_pgpReadPkts path armor pkt) cs.

(** The key-info extractor ran during the construction and gave [infos]. *)
Definition infos_extracted (cs : list Event) (infos : list Key) : Prop :=
  exists path, In (Call_rawkey2infos path infos) cs.

(** No temporary file is removed by these calls. *)
Definition removes_nothing (cs : list Event) : Prop :=
  forall q, ~ In (TempFile_removed q) cs.

(** What a construction that opened a file with content [c] at [path] did
    and gave, up to the calls around the reading. *)
Definition construction_of (eng : Engine) (url path : string) (c : list byte)
    (o : Outcome KeyInfo) : Prop :=
  result o = (if (fst (engine_pgpReadPkts eng (Some c)) =? PGPARMOR_PUBKEY)%Z
              then Ret (key_read eng url path c)
              else Throw (KeyImportError not_armored_msg url))
  /\ exists pre post,
       calls o = (pre ++ read_calls eng path c ++ post)%list
       /\ (forall e, In e (pre ++ post)%list ->
             match e with
             | Call_pgpReadPkts _ _ _ | Call_rawkey2infos _ _ => False
             | _ => True
             end).

(* ================================================================== *)
(** ** Concrete collaborators, for the runs below *)

(** The log of a package whose payload digest is wrong. *)
Definition bad_digest_log : list string :=
  [ "/pkgs/bad-1.0-1.x86_64.rpm:";
    "    Header V4 RSA/SHA256 Signature, key ID 773dd1ba: NOKEY";
    "    Header SHA256 digest: OK";
    "    Payload SHA256 digest: BAD (Expected 5f3c but got 91aa)";
    "    V4 RSA/SHA256 Signature, key ID 773dd1ba: NOTTRUSTED" ]%list.

(** A log whose header line itself ends like an untrusted finding. *)
Definition header_ending_log : list string :=
  [ "/pkgs/odd-1.0-1.x86_64.rpm: NOTTRUSTED";
    "    Header V4 RSA/SHA256 Signature, key ID 773dd1ba: NOKEY";
    "    Header SHA256 digest: OK" ]%list.

(** A log with an untrusted key and a missing key. *)
Definition mixed_log : list string :=
  [ "/pkgs/mixed-1.0-1.x86_64.rpm:";
    "    Header V4 RSA/SHA256 Signature, key ID 773dd1ba: NOKEY";
    "    V4 RSA/SHA256 Signature, key ID 0a1b2c3d: NOTTRUSTED";
    "    Header RSA signature: NOTFOUND";
    "    Header SHA256 digest: OK" ]%list.

Definition good_log : list string :=
  [ "/pkgs/good-1.0-1.x86_64.rpm:";
    "    Header V4 RSA/SHA256 Signature, key ID 773dd1ba: OK";
    "    Payload SHA256 digest: OK" ]%list.

Definition demo_verify (ts : rpmts_s) (mask : Z) (path : string) : Z * list string :=
  if (path =? "/pkgs/bad-1.0-1.x86_64.rpm")%string then (1%Z, bad_digest_log)
  else if (path =? "/pkgs/odd-1.0-1.x86_64.rpm")%string then (1%Z, header_ending_log)
  else if (path =? "/pkgs/mixed-1.0-1.x86_64.rpm")%string then (1%Z, mixed_log)
  else (0%Z, good_log).

(** The packet of the demo key, and an armored file that holds it. *)
Definition demo_packet : list byte := [x99; x01; x0d; x04]%list.
Definition demo_armor : list byte := [x2d; x2d; x2d; x2d; x2d; x42]%list.
(** A file that reads as a public key armor with nothing in it. *)
Definition hollow_armor : list byte := [x2d; x2d; x2d; x2d; x2d; x0a]%list.
Definition not_a_key : list byte := [x68; x69]%list.

Definition demo_identity : Key :=
  mkKey "5e7a9b3c773dd1ba" "Demo Packager <demo@example.org>"
        "0123456789abcdef01235e7a9b3c773dd1ba".

Definition demo_pubkey_header : Header := mkHeader "gpg-pubkey" "773dd1ba" "5f2a1c00".

(** An engine that takes absolute roots only, imports every key but the
    hollow one, and reads [demo_armor] as a public key. *)
Definition demo_engine : Engine :=
  mkEngine
    (fun root => if starts_with root "/" then 0%Z else (-1)%Z)
    demo_verify
    (fun ts db pkt len =>
       match pkt with
       | []%list => (2%Z, db)
       | _ => (0%Z, (db ++ [demo_pubkey_header])%list)
       end)
    (fun url => starts_with url "file://" || starts_with url "https://")
    (fun url => if (url =? "https://keys.example.org/demo.asc")%string
                then Some demo_armor else None)
    (fun name_prefix => "/tmp/" ++ name_prefix ++ ".a1b2c3")
    (fun content => match content with
                    | (x2d :: x2d :: x2d :: x2d :: x2d :: x42 :: _)%list => [demo_identity]%list
                    | _ => []%list
                    end)
    (fun content => match content with
                    | Some (x2d :: x2d :: x2d :: x2d :: x2d :: x42 :: _)%list => (2%Z, demo_packet)
                    | Some (x2d :: x2d :: x2d :: x2d :: x2d :: x0a :: _)%list => (2%Z, []%list)
                    | _ => ((-3)%Z, []%list)
                    end).

Definition base_root : Base := mkBase "/" true.
Definition base_relative : Base := mkBase "var/chroot" true.

Definition repo_checked : Repo := mkRepo AVAILABLE true.
Definition repo_unchecked : Repo := mkRepo AVAILABLE false.

Definition pkg_bad : Package := mkPackage repo_checked "/pkgs/bad-1.0-1.x86_64.rpm".
Definition pkg_odd : Package := mkPackage repo_checked "/pkgs/odd-1.0-1.x86_64.rpm".
Definition pkg_mixed : Package := mkPackage repo_checked "/pkgs/mixed-1.0-1.x86_64.rpm".
Definition pkg_good : Package := mkPackage repo_checked "/pkgs/good-1.0-1.x86_64.rpm".
Definition pkg_unchecked : Package := mkPackage repo_unchecked "/pkgs/bad-1.0-1.x86_64.rpm".

Definition demo_files (p : string) : option (list byte) :=
  if (p =? "/etc/pki/demo.asc")%string then Some demo_armor
  else if (p =? "/etc/pki/hollow.asc")%string then Some hollow_armor
  else if (p =? "/etc/motd")%string then Some not_a_key
  else None.

(** A world with the default log mask (up to notices) and no trusted key. *)
Definition world_empty : World := mkWorld 63 []%list []%list demo_files.

(** The same world once the demo key is trusted. *)
Definition world_trusting : World :=
  mkWorld 63 [mkHeader "bash" "5.2.26" "3"; demo_pubkey_header]%list []%list demo_files.

Definition demo_key : KeyInfo :=
  mkKeyInfo "/etc/pki/demo.asc" "/etc/pki/demo.asc" "5e7a9b3c773dd1ba"
    "Demo Packager <demo@example.org>" "0123456789abcdef01235e7a9b3c773dd1ba"
    demo_packet 4.

(* ================================================================== *)
(** ** Vocabulary of the further properties *)

(** The four endings the loop knows, as the loop tests them. *)
Definition recognized_ending_b (line : string) : bool :=
  ends_with line ": NOKEY" || ends_with line ": NOTTRUSTED"
  || ends_with line ": NOTFOUND" || ends_with line ": OK".

(** A finding that makes the loop return [FAILED] on the spot: it has
    [": BAD"] in it, or it ends with none of the four endings. *)
Definition fatal_b (path line : string) : bool :=
  negb (starts_with line path)
  && (match find line ": BAD" with Some _ => true | None => false end
      || negb (recognized_ending_b line)).

(** The findings of a log: the lines the loop does not skip. *)
Definition findings (path : string) (logs : list string) : list string :=
  filter (fun line => negb (starts_with line path)) logs.

(** How many times the verify entry point is called. *)
Fixpoint verify_count (cs : list Event) : nat :=
  match cs with
  | []%list => 0
  | (Call_rpmcliVerifySignatures _ _ _ _ :: cs')%list => S (verify_count cs')
  | (_ :: cs')%list => verify_count cs'
  end.

(** Neither a session nor a log guard starts or ends in these calls. *)
Definition no_session_or_guard (cs : list Event) : Prop :=
  forall e, In e cs ->
    match e with
    | RpmLogGuard_acquire | RpmLogGuard_release
    | Call_rpmtsCreate | Call_rpmtsFree => False
    | _ => True
    end.

(** The calls of an operation that holds the log guard around one session:
    guard, session, the work, end of the session, end of the guard. *)
Definition bracketed (cs : list Event) : Prop :=
  exists work,
    cs = (RpmLogGuard_acquire :: Call_rpmtsCreate :: work
          ++ [Call_rpmtsFree; RpmLogGuard_release])%list
    /\ no_session_or_guard work.

(** The log mask is never set by these calls. *)
Definition never_sets_mask (cs : list Event) : Prop :=
  forall mask, ~ In (Call_rpmlogSetMask mask) cs.

(** The iterator of the database is opened once, advanced [n] times and
    freed once, in that order, and by no other call. *)
Definition iterates (cs : list Event) (n : nat) : Prop :=
  exists pre post,
    cs = (pre ++ Call_rpmtsInitIterator "gpg-pubkey"
              :: repeat Call_rpmdbNextIterator n
          ++ Call_rpmdbFreeIterator :: post)%list
    /\ (forall e, In e (pre ++ post)%list ->
          match e with
          | Call_rpmtsInitIterator _ | Call_rpmdbNextIterator
          | Call_rpmdbFreeIterator => False
          | _ => True
          end).



(** No temporary file is made and nothing is downloaded. *)
Definition stays_local (cs : list Event) : Prop :=
  forall e, In e cs ->
    match e with
    | TempFile_created _ | TempFile_removed _ | Call_download _ _ => False
    | _ => True
    end.

(** The outcome of a construction, told for another reference string: the
    key and the [KeyImportError] carry the reference, nothing else does. *)
Definition for_reference (url : string) (r : Result KeyInfo) : Result KeyInfo :=
  match r with
  | Ret k => Ret (mkKeyInfo url (key_path k) (key_id k) (user_id k) (fingerprint k)
                    (pkt_ptr k) (pkt_len k))
  | Throw (KeyImportError fmt _) => Throw (KeyImportError fmt url)
  | Throw e => Throw e
  end.

(** A second identity, and an engine whose extractor finds two in the demo
    armor. *)
Definition second_identity : Key :=
  mkKey "00aa11bb22cc33dd" "Second Packager <second@example.org>"
        "fedcba98765432100000" .

Definition two_identity_engine : Engine :=
  mkEngine (engine_set_root demo_engine) (engine_verify demo_engine)
    (engine_import demo_engine) (is_url demo_engine) (engine_fetch demo_engine)
    (engine_mkstemp demo_engine)
    (fun content => [demo_identity; second_identity]%list)
    (engine_pgpReadPkts demo_engine).

(** A key with another id that ends like the id of the demo key. *)
Definition lookalike_key : KeyInfo :=
  mkKeyInfo "/etc/pki/other.asc" "/etc/pki/other.asc" "ffffffff773dd1ba"
    "Somebody Else <else@example.org>" "ffff0000ffff0000ffffffffffff773dd1ba"
    [x99; x02]%list 2.

(** How many times the loop of [rpmdb_lookup] advances the iterator over
    [records]: up to the first match, or once past the last record. *)
Fixpoint advances (records : list Header) (key_id : string) : nat :=
  match records with
  | []%list => 1
  | (h :: rest)%list =>
      if (RPMTAG_VERSION h =? key_id)%string then 1 else S (advances rest key_id)
  end.

(** The masks that the calls set, in order. *)
Fixpoint mask_sets (cs : list Event) : list Z :=
  match cs with
  | []%list => []%list
  | (Call_rpmlogSetMask mask :: cs')%list => (mask :: mask_sets cs')%list
  | (_ :: cs')%list => mask_sets cs'
  end.

(** An engine like the demo one, whose verify call fails on every path with
    a key that is missing. *)
Definition failing_engine : Engine :=
  mkEngine (engine_set_root demo_engine)
    (fun ts mask path =>
       (1%Z, [ "    Header V4 RSA/SHA256 Signature, key ID 773dd1ba: NOKEY";
               "    Header SHA256 digest: OK" ]%list))
    (engine_import demo_engine) (is_url demo_engine) (engine_fetch demo_engine)
    (engine_mkstemp demo_engine) (engine_rawkey2infos demo_engine)
    (engine_pgpReadPkts demo_engine).

(** A package with no path. *)
Definition pkg_nowhere : Package := mkPackage repo_checked EmptyString.

(* ================================================================== *)
(** ** Strings *)

Section Strings.

Lemma length_app (a b : string) :
  String.length (a ++ b) = String.length a + String.length b.
Proof. induction a as [|c a IH]; simpl; [reflexivity | now rewrite IH]. Qed.

Lemma substring_whole (s : string) : substring 0 (String.length s) s = s.
Proof. induction s as [|c s IH]; simpl; [reflexivity | now rewrite IH]. Qed.

Lemma substring_head (x t : string) : substring 0 (String.length x) (x ++ t) = x.
Proof.
  induction x as [|c x IH]; simpl.
  - destruct t; reflexivity.
  - now rewrite IH.
Qed.

Lemma substring_skip (t x : string) (m : nat) :
  substring (String.length t) m (t ++ x) = substring 0 m x.
Proof. induction t as [|c t IH]; simpl; [reflexivity | exact IH]. Qed.

Lemma substring_split (s : string) (n : nat) :
  s = substring 0 n s ++ substring n (String.length s - n) s.
Proof.
  revert n; induction s as [|c s IH]; intros [|n]; simpl; try reflexivity.
  - now rewrite substring_whole.
  - now rewrite <- IH.
Qed.

Lemma starts_with_spec (s x : string) : starts_with s x = true <-> begins_with s x.
Proof.
  unfold starts_with, begins_with. rewrite andb_true_iff, Nat.leb_le, String.eqb_eq.
  split.
  - intros [_ H]. exists (substring (String.length x) (String.length s - String.length x) s).
    rewrite <- H at 1. apply substring_split.
  - intros [t ->]. split.
    + rewrite length_app. lia.
    + apply substring_head.
Qed.

Lemma ends_with_spec (s x : string) : ends_with s x = true <-> has_suffix s x.
Proof.
  unfold ends_with, has_suffix. rewrite andb_true_iff, Nat.leb_le, String.eqb_eq.
  split.
  - intros [Hle H]. exists (substring 0 (String.length s - String.length x) s).
    pose proof (substring_split s (String.length s - String.length x)) as Hs.
    replace (String.length s - (String.length s - String.length x))
      with (String.length x) in Hs by lia.
    rewrite H in Hs. exact Hs.
  - intros [t ->]. split.
    + rewrite length_app. lia.
    + rewrite length_app.
      replace (String.length t + String.length x - String.length x)
        with (String.length t) by lia.
      rewrite substring_skip. apply substring_whole.
Qed.

Lemma find_from_spec (s pat : string) (pos : nat) :
  (exists n, find_from s pat pos = Some n) <-> contains s pat.
Proof.
  revert pos; induction s as [|c s IH]; intros pos; simpl.
  - destruct (starts_with EmptyString pat) eqn:E.
    + split; [intros _ | intros _; eauto].
      apply starts_with_spec in E. destruct E as [t E].
      exists EmptyString, t. exact E.
    + split; [intros [n H]; discriminate|].
      intros [a [b H]]. destruct a; simpl in H.
      * assert (starts_with EmptyString pat = true)
          by (apply starts_with_spec; exists b; exact H).
        congruence.
      * discriminate.
  - destruct (starts_with (String c s) pat) eqn:E.
    + split; [intros _ | intros _; eauto].
      apply starts_with_spec in E. destruct E as [t E].
      exists EmptyString, t. exact E.
    + rewrite IH. split.
      * intros [a [b H]]. exists (String c a), b. simpl. now rewrite H.
      * intros [a [b H]]. destruct a as [|c' a]; simpl in H.
        -- assert (starts_with (String c s) pat = true)
             by (apply starts_with_spec; exists b; exact H).
           congruence.
        -- injection H as _ H. exists a, b. exact H.
Qed.

Lemma find_spec (s pat : string) :
  (exists n, find s pat = Some n) <-> contains s pat.
Proof. apply find_from_spec. Qed.

Lemma find_none (s pat : string) : find s pat = None <-> ~ contains s pat.
Proof.
  rewrite <- find_spec. destruct (find s pat) as [n|].
  - split; [discriminate | intros H; exfalso; apply H; eauto].
  - split; [intros _ [n H]; discriminate | reflexivity].
Qed.

(** Two suffixes of one string: the shorter is a suffix of the longer. *)
Lemma suffix_of_suffix (b a x y : string) :
  a ++ x = b ++ y -> String.length x <= String.length y -> has_suffix y x.
Proof.
  revert a; induction b as [|c b IH]; intros a H Hle; simpl in H.
  - exists a. now symmetry.
  - destruct a as [|c' a]; simpl in H.
    + exfalso. apply (f_equal String.length) in H. simpl in H.
      rewrite length_app in H. lia.
    + injection H as _ H. exact (IH a H Hle).
Qed.

Lemma ends_with_both (s x y : string) :
  ends_with s x = true -> ends_with s y = true ->
  String.length x <= String.length y -> ends_with y x = true.
Proof.
  intros Hx Hy Hle. apply ends_with_spec in Hx, Hy. apply ends_with_spec.
  destruct Hx as [a ->], Hy as [b Hb]. exact (suffix_of_suffix b a x y Hb Hle).
Qed.

End Strings.

(* ================================================================== *)
(** ** The loop over the log lines *)

Ltac run :=
  cbv zeta;
  unfold verify_and_classify, check_package_signature, create_transaction,
    key_present, import_key, rpmdb_lookup, at_scope_exit, bind, ret, throw, emit,
    rpmtsCreate, rpmtsFree, rpmtsSetRootDir, rpmlogSetMask, rpmtsSetVfyLevel,
    rpmcliVerifySignatures, rpmtsInitIterator, rpmdbFreeIterator, rpmtsImportPubkey,
    RpmLogGuardStrings_ctor, RpmLogGuardStrings_dtor, get_rpm_logs, RpmLogGuard_ctor,
    RpmLogGuard_dtor, emit, set_log_mask, set_rpmdb, set_rpm_logs, set_files;
  cbn [result world calls log_mask rpmdb rpm_logs files app fst snd negb
       ts_rootDir ts_vfylevel].

(** Two of the four endings never hold of one line. *)
Ltac clash H1 H2 :=
  exfalso;
  let Hc := fresh "Hc" in
  first
    [ pose proof (ends_with_both _ _ _ H1 H2 ltac:(simpl; lia)) as Hc
    | pose proof (ends_with_both _ _ _ H2 H1 ltac:(simpl; lia)) as Hc ];
  vm_compute in Hc; discriminate Hc.

Section LogLines.

Variable path : string.

Lemma nokey_excludes (line : string) :
  ends_with line ": NOKEY" = true ->
  ends_with line ": NOTTRUSTED" = false /\ ends_with line ": NOTFOUND" = false
  /\ ends_with line ": OK" = false.
Proof.
  intros H. repeat split.
  - destruct (ends_with line ": NOTTRUSTED") eqn:E; [clash H E | reflexivity].
  - destruct (ends_with line ": NOTFOUND") eqn:E; [clash H E | reflexivity].
  - destruct (ends_with line ": OK") eqn:E; [clash H E | reflexivity].
Qed.

Lemma nottrusted_excludes (line : string) :
  ends_with line ": NOTTRUSTED" = true ->
  ends_with line ": NOKEY" = false /\ ends_with line ": NOTFOUND" = false
  /\ ends_with line ": OK" = false.
Proof.
  intros H. repeat split.
  - destruct (ends_with line ": NOKEY") eqn:E; [clash H E | reflexivity].
  - destruct (ends_with line ": NOTFOUND") eqn:E; [clash H E | reflexivity].
  - destruct (ends_with line ": OK") eqn:E; [clash H E | reflexivity].
Qed.

Lemma notfound_excludes (line : string) :
  ends_with line ": NOTFOUND" = true ->
  ends_with line ": NOKEY" = false /\ ends_with line ": NOTTRUSTED" = false
  /\ ends_with line ": OK" = false.
Proof.
  intros H. repeat split.
  - destruct (ends_with line ": NOKEY") eqn:E; [clash H E | reflexivity].
  - destruct (ends_with line ": NOTTRUSTED") eqn:E; [clash H E | reflexivity].
  - destruct (ends_with line ": OK") eqn:E; [clash H E | reflexivity].
Qed.

(** A finding with [": BAD"] in it decides the loop, whatever was seen
    before it and whatever follows. *)
Lemma scan_bad (logs : list string) :
  (exists line, In line logs /\ starts_with line path = false
                /\ find line ": BAD" <> None) ->
  forall mk nt ns, scan_rpm_logs path logs mk nt ns = FAILED.
Proof.
  induction logs as [|l rest IH]; intros [line [Hin [Hhdr Hbad]]] mk nt ns.
  - destruct Hin.
  - simpl. destruct (starts_with l path) eqn:Eh.
    + apply IH. destruct Hin as [-> | Hin]; [congruence | eauto].
    + destruct (find l ": BAD") eqn:Eb; [reflexivity|].
      assert (Hrest : exists line0, In line0 rest /\ starts_with line0 path = false
                                    /\ find line0 ": BAD" <> None).
      { destruct Hin as [-> | Hin]; [congruence | eauto]. }
      destruct (ends_with l ": NOKEY"); [now apply IH|].
      destruct (ends_with l ": NOTTRUSTED"); [now apply IH|].
      destruct (ends_with l ": NOTFOUND"); [now apply IH|].
      destruct (ends_with l ": OK"); simpl; [now apply IH | reflexivity].
Qed.

(** Without [": BAD"], a finding that ends with none of the four endings
    decides the loop as well. *)
Lemma scan_unrecognized (logs : list string) :
  (forall line, In line logs -> starts_with line path = false ->
                find line ": BAD" = None) ->
  (exists line, In line logs /\ starts_with line path = false
                /\ ends_with line ": NOKEY" = false
                /\ ends_with line ": NOTTRUSTED" = false
                /\ ends_with line ": NOTFOUND" = false
                /\ ends_with line ": OK" = false) ->
  forall mk nt ns, scan_rpm_logs path logs mk nt ns = FAILED.
Proof.
  induction logs as [|l rest IH]; intros Hnb [line [Hin Hl]] mk nt ns.
  - destruct Hin.
  - simpl. destruct (starts_with l path) eqn:Eh.
    + apply IH; [intros; apply Hnb; simpl; auto|].
      destruct Hin as [-> | Hin]; [destruct Hl; congruence | eauto].
    + rewrite (Hnb l (or_introl eq_refl) Eh).
      destruct Hin as [-> | Hin].
      * destruct Hl as [_ [-> [-> [-> ->]]]]. reflexivity.
      * assert (Hrest : forall mk' nt' ns', scan_rpm_logs path rest mk' nt' ns' = FAILED).
        { apply IH; [intros; apply Hnb; simpl; auto | eauto]. }
        destruct (ends_with l ": NOKEY"); [apply Hrest|].
        destruct (ends_with l ": NOTTRUSTED"); [apply Hrest|].
        destruct (ends_with l ": NOTFOUND"); [apply Hrest|].
        destruct (ends_with l ": OK"); simpl; [apply Hrest | reflexivity].
Qed.

(** Without [": BAD"] and with every finding recognized, the loop ends with
    the three flags: each is set when some finding has its ending. *)
Lemma scan_flags (logs : list string) :
  (forall line, In line logs -> starts_with line path = false ->
     find line ": BAD" = None
     /\ (ends_with line ": NOKEY" || ends_with line ": NOTTRUSTED"
         || ends_with line ": NOTFOUND" || ends_with line ": OK") = true) ->
  forall mk nt ns,
    scan_rpm_logs path logs mk nt ns =
    final_verdict (mk || existsb (finding_ends_b path ": NOKEY") logs)
                  (nt || existsb (finding_ends_b path ": NOTTRUSTED") logs)
                  (ns || existsb (finding_ends_b path ": NOTFOUND") logs).
Proof.
  induction logs as [|l rest IH]; intros Hok mk nt ns.
  - simpl. now rewrite !orb_false_r.
  - assert (Hrest : forall line, In line rest -> starts_with line path = false ->
       find line ": BAD" = None
       /\ (ends_with line ": NOKEY" || ends_with line ": NOTTRUSTED"
           || ends_with line ": NOTFOUND" || ends_with line ": OK") = true)
      by (intros; apply Hok; simpl; auto).
    simpl. unfold finding_ends_b at 1 3 5.
    destruct (starts_with l path) eqn:Eh.
    + simpl. apply IH, Hrest.
    + destruct (Hok l (or_introl eq_refl) Eh) as [-> Hrec]. simpl.
      destruct (ends_with l ": NOKEY") eqn:E1.
      { destruct (nokey_excludes l E1) as [-> [-> _]].
        rewrite (IH Hrest). simpl. now rewrite !orb_true_r. }
      destruct (ends_with l ": NOTTRUSTED") eqn:E2.
      { destruct (nottrusted_excludes l E2) as [_ [-> _]].
        rewrite (IH Hrest). simpl. now rewrite !orb_true_r. }
      destruct (ends_with l ": NOTFOUND") eqn:E3.
      { rewrite (IH Hrest). simpl. now rewrite !orb_true_r. }
      simpl in Hrec. rewrite Hrec. simpl. apply IH, Hrest.
Qed.

Lemma finding_iff (line : string) :
  starts_with line path = false <-> finding path line.
Proof.
  unfold finding. rewrite <- starts_with_spec.
  destruct (starts_with line path); split; intros H; congruence.
Qed.

Lemma existsb_finding (logs : list string) (suffix : string) :
  existsb (finding_ends_b path suffix) logs = true <->
  some_finding_ends path logs suffix.
Proof.
  unfold some_finding_ends. rewrite existsb_exists.
  split; intros [line [Hin H]]; exists line; split; auto.
  - unfold finding_ends_b in H. apply andb_true_iff in H. destruct H as [H1 H2].
    apply negb_true_iff in H1. split; [now apply finding_iff | now apply ends_with_spec].
  - destruct H as [H1 H2]. unfold finding_ends_b.
    apply finding_iff in H1. apply ends_with_spec in H2. now rewrite H1, H2.
Qed.

Lemma existsb_no_finding (logs : list string) (suffix : string) :
  existsb (finding_ends_b path suffix) logs = false <->
  ~ some_finding_ends path logs suffix.
Proof.
  rewrite <- existsb_finding.
  destruct (existsb (finding_ends_b path suffix) logs); split; intros H;
    congruence.
Qed.

Lemma recognized_b (line : string) :
  (ends_with line ": NOKEY" || ends_with line ": NOTTRUSTED"
   || ends_with line ": NOTFOUND" || ends_with line ": OK") = true <->
  recognized line.
Proof.
  unfold recognized. rewrite !orb_true_iff, !ends_with_spec. tauto.
Qed.

End LogLines.

(* ================================================================== *)
(** ** check_package_signature *)

Section SignatureCheck.

Variable eng : Engine.
Variable base : Base.

Lemma verify_refused_root (pkg : Package) (w : World) :
  engine_set_root eng (installroot base) <> 0%Z ->
  let o := verify_and_classify eng base pkg w in
  result o = Throw (SignatureCheckError rootdir_msg (installroot base))
  /\ calls o = refused_root_calls (installroot base)
                 (engine_set_root eng (installroot base))
  /\ log_mask (world o) = log_mask w.
Proof.
  intros H. apply Z.eqb_neq in H.
  run. rewrite H. run. auto.
Qed.

Lemma verify_runs (pkg : Package) (w : World) :
  engine_set_root eng (installroot base) = 0%Z ->
  let o := verify_and_classify eng base pkg w in
  result o =
    (if (fst (engine_answer eng base pkg) =? RPMRC_OK)%Z then Ret OK
     else Ret (scan_rpm_logs (get_package_path pkg) (snd (engine_answer eng base pkg)) false false false))
  /\ calls o = verification_calls base pkg (log_mask w) (engine_answer eng base pkg)
  /\ log_mask (world o) = log_mask w.
Proof.
  intros H. unfold engine_answer, verify_session, elevated_mask, verification_calls.
  run. rewrite H. change (0 =? 0)%Z with true. run.
  destruct (fst (engine_verify eng _ _ _) =? RPMRC_OK)%Z; run; auto.
Qed.

Lemma gate_closed (pkg : Package) (w : World) :
  gpgcheck_required base pkg = false ->
  check_package_signature eng base pkg w = mkOutcome (Ret OK) w [].
Proof.
  unfold gpgcheck_required, check_package_signature.
  destruct (is_commandline (get_type (get_repo pkg))); intros ->; reflexivity.
Qed.

Lemma gate_open (pkg : Package) (w : World) :
  gpgcheck_required base pkg = true ->
  check_package_signature eng base pkg w = verify_and_classify eng base pkg w.
Proof.
  unfold gpgcheck_required, check_package_signature.
  destruct (is_commandline (get_type (get_repo pkg))); intros ->; reflexivity.
Qed.

Lemma gpgcheck_off_iff (pkg : Package) :
  gpgcheck_off base pkg <-> gpgcheck_required base pkg = false.
Proof.
  unfold gpgcheck_off, gpgcheck_required.
  destruct (get_type (get_repo pkg)); simpl; split; intros H;
    try (destruct H as [[H1 H2] | [H1 H2]]; congruence);
    try (right; split; [discriminate | exact H]);
    try (left; split; [reflexivity | exact H]).
Qed.

(** Whatever the engine did in a check, it did in a check that was
    required, with a session that took the root, and it answered [answer]. *)
Lemma verify_call_inv (pkg : Package) (w : World) (mask : Z) (path : string)
    (rc : Z) (logs : list string) :
  In (Call_rpmcliVerifySignatures mask path rc logs)
     (calls (check_package_signature eng base pkg w)) ->
  gpgcheck_required base pkg = true
  /\ engine_set_root eng (installroot base) = 0%Z
  /\ mask = elevated_mask /\ path = get_package_path pkg
  /\ rc = fst (engine_answer eng base pkg) /\ logs = snd (engine_answer eng base pkg).
Proof.
  intros Hin.
  destruct (gpgcheck_required base pkg) eqn:Eg.
  - rewrite (gate_open pkg w Eg) in Hin.
    destruct (Z.eq_dec (engine_set_root eng (installroot base)) 0) as [E0 | E0].
    + destruct (verify_runs pkg w E0) as [_ [Hc _]]. rewrite Hc in Hin.
      unfold verification_calls in Hin. simpl in Hin.
      repeat (destruct Hin as [Hin | Hin]; try discriminate Hin); try contradiction.
      injection Hin as <- <- <- <-. auto 10.
    + destruct (verify_refused_root pkg w E0) as [_ [Hc _]]. rewrite Hc in Hin.
      unfold refused_root_calls in Hin. simpl in Hin.
      repeat (destruct Hin as [Hin | Hin]; try discriminate Hin); contradiction.
  - rewrite (gate_closed pkg w Eg) in Hin. destruct Hin.
Qed.

(** C1. When the engine reports a failure and some line of the captured log
    that does not begin with the path of the package has [": BAD"] in it,
    [check_package_signature] returns [FAILED], whatever else the log holds:
    lines that end with NOKEY, NOTTRUSTED or NOTFOUND do not change it. *)
Theorem bad_line_is_failed (pkg : Package) (w : World) (mask rc : Z)
    (path : string) (logs : list string) :
  In (Call_rpmcliVerifySignatures mask path rc logs)
     (calls (check_package_signature eng base pkg w)) ->
  rc <> RPMRC_OK ->
  (exists line, In line logs /\ finding (get_package_path pkg) line
                /\ contains line ": BAD") ->
  result (check_package_signature eng base pkg w) = Ret FAILED.
Proof.
  intros Hin Hrc [line [Hl [Hf Hb]]].
  destruct (verify_call_inv pkg w mask path rc logs Hin)
    as [Eg [E0 [_ [_ [-> ->]]]]].
  rewrite (gate_open pkg w Eg).
  destruct (verify_runs pkg w E0) as [-> _].
  apply Z.eqb_neq in Hrc. rewrite Hrc. f_equal.
  apply scan_bad. exists line. repeat split; auto.
  - now apply finding_iff.
  - intros Hn. apply find_none in Hn. contradiction.
Qed.

(** The amended C2. When the engine reports a failure and no finding (a
    line that does not begin with the path of the package) has [": BAD"] in
    it: a finding that ends with none of the four endings gives [FAILED];
    when every finding ends with one of them, the result is
    [FAILED_NOT_TRUSTED] if some finding ends with [": NOTTRUSTED"], else
    [FAILED_KEY_MISSING] if some finding ends with [": NOKEY"], else
    [FAILED_NOT_SIGNED] if some finding ends with [": NOTFOUND"], else
    [FAILED]. Header lines count for nothing, whatever they end with. *)
Theorem findings_decide_the_failure (pkg : Package) (w : World) (mask rc : Z)
    (path : string) (logs : list string) :
  let o := check_package_signature eng base pkg w in
  let some_ends := some_finding_ends (get_package_path pkg) logs in
  In (Call_rpmcliVerifySignatures mask path rc logs) (calls o) ->
  rc <> RPMRC_OK ->
  (forall line, In line logs -> finding (get_package_path pkg) line ->
                ~ contains line ": BAD") ->
  ((exists line, In line logs /\ finding (get_package_path pkg) line
                 /\ ~ recognized line) ->
   result o = Ret FAILED)
  /\ ((forall line, In line logs -> finding (get_package_path pkg) line ->
                    recognized line) ->
      (some_ends ": NOTTRUSTED" -> result o = Ret FAILED_NOT_TRUSTED)
      /\ (~ some_ends ": NOTTRUSTED" -> some_ends ": NOKEY" ->
          result o = Ret FAILED_KEY_MISSING)
      /\ (~ some_ends ": NOTTRUSTED" -> ~ some_ends ": NOKEY" ->
          some_ends ": NOTFOUND" -> result o = Ret FAILED_NOT_SIGNED)
      /\ (~ some_ends ": NOTTRUSTED" -> ~ some_ends ": NOKEY" ->
          ~ some_ends ": NOTFOUND" -> result o = Ret FAILED)).
Proof.
  intros o some_ends Hin Hrc Hnb. subst o some_ends.
  destruct (verify_call_inv pkg w mask path rc logs Hin)
    as [Eg [E0 [_ [_ [Erc Elogs]]]]].
  rewrite (gate_open pkg w Eg).
  destruct (verify_runs pkg w E0) as [-> _].
  rewrite <- Erc, <- Elogs.
  apply Z.eqb_neq in Hrc. rewrite Hrc.
  assert (Hnb' : forall line, In line logs ->
            starts_with line (get_package_path pkg) = false ->
            find line ": BAD" = None).
  { intros line Hl Hs. apply find_none. apply Hnb; auto. now apply finding_iff. }
  split.
  - intros [line [Hl [Hf Hr]]]. f_equal.
    apply scan_unrecognized; auto.
    exists line. split; [exact Hl|]. split; [now apply finding_iff|].
    assert (Hb : (ends_with line ": NOKEY" || ends_with line ": NOTTRUSTED"
                  || ends_with line ": NOTFOUND" || ends_with line ": OK") = false).
    { destruct (ends_with line ": NOKEY" || ends_with line ": NOTTRUSTED"
                || ends_with line ": NOTFOUND" || ends_with line ": OK") eqn:E;
        [|reflexivity].
      exfalso. apply Hr. now apply recognized_b. }
    rewrite !orb_false_iff in Hb. tauto.
  - intros Hrec.
    rewrite (scan_flags (get_package_path pkg) logs).
    2:{ intros line Hl Hs. split; [now apply Hnb'|].
        apply recognized_b. apply Hrec; auto. now apply finding_iff. }
    simpl. unfold final_verdict.
    repeat split.
    + intros H. apply existsb_finding in H. now rewrite H.
    + intros H1 H2. apply existsb_no_finding in H1. apply existsb_finding in H2.
      now rewrite H1, H2.
    + intros H1 H2 H3. apply existsb_no_finding in H1, H2.
      apply existsb_finding in H3. now rewrite H1, H2, H3.
    + intros H1 H2 H3. apply existsb_no_finding in H1, H2, H3.
      now rewrite H1, H2, H3.
Qed.

(** C3. For a package whose check is required by the policy, when the
    verify call of the engine returns success, [check_package_signature]
    returns [OK]: whatever lines were captured, and with no call after the
    verify call but the ones that put the mask back and end the session. *)
Theorem engine_success_is_ok (pkg : Package) (w : World) (mask rc : Z)
    (path : string) (logs : list string) :
  let o := check_package_signature eng base pkg w in
  gpgcheck_required base pkg = true ->
  In (Call_rpmcliVerifySignatures mask path rc logs) (calls o) ->
  rc = RPMRC_OK ->
  result o = Ret OK
  /\ calls o = verification_calls base pkg (log_mask w) (RPMRC_OK, logs).
Proof.
  intros o Eg Hin Hrc. subst o.
  destruct (verify_call_inv pkg w mask path rc logs Hin)
    as [_ [E0 [_ [_ [Erc Elogs]]]]].
  rewrite (gate_open pkg w Eg).
  destruct (verify_runs pkg w E0) as [-> [-> _]].
  rewrite <- Erc, Hrc. split; [reflexivity|].
  unfold verification_calls. simpl. rewrite <- Erc, <- Elogs, Hrc. reflexivity.
Qed.

(** The amended C4. When the check is switched off for the package
    (command-line package and [localpkg_gpgcheck] false, or repository
    package and the [gpgcheck] of its repository false),
    [check_package_signature] returns [OK] with no call at all: no session,
    no verify call. Otherwise it creates a session; when the session takes
    the install root the verify entry point is called, once, on the path of
    the package; when it does not, [SignatureCheckError] is thrown and the
    verify entry point is never called. *)
Theorem policy_gate (pkg : Package) (w : World) :
  let o := check_package_signature eng base pkg w in
  (gpgcheck_off base pkg -> result o = Ret OK /\ calls o = [] /\ world o = w)
  /\ (~ gpgcheck_off base pkg ->
      In Call_rpmtsCreate (calls o)
      /\ (engine_set_root eng (installroot base) = 0%Z ->
          calls o = verification_calls base pkg (log_mask w) (engine_answer eng base pkg))
      /\ (engine_set_root eng (installroot base) <> 0%Z ->
          result o = Throw (SignatureCheckError rootdir_msg (installroot base))
          /\ never_verifies (calls o))).
Proof.
  intros o. subst o. split.
  - intros Hoff. apply gpgcheck_off_iff in Hoff.
    rewrite (gate_closed pkg w Hoff). auto.
  - intros Hon. rewrite gpgcheck_off_iff in Hon.
    apply not_false_is_true in Hon. rewrite (gate_open pkg w Hon).
    destruct (Z.eq_dec (engine_set_root eng (installroot base)) 0) as [E0 | E0].
    + destruct (verify_runs pkg w E0) as [_ [Hc _]]. rewrite Hc.
      split; [simpl; auto|].
      split; [intros _; reflexivity | intros H; contradiction].
    + destruct (verify_refused_root pkg w E0) as [Hr [Hc _]]. rewrite Hc, Hr.
      split; [simpl; auto|].
      split; [intros H; contradiction | intros _].
      split; [reflexivity|].
      intros mask path rc logs Hin. unfold refused_root_calls in Hin. simpl in Hin.
      repeat (destruct Hin as [Hin | Hin]; try discriminate Hin); contradiction.
Qed.

(** C5. On every way out of [check_package_signature] (the early return of
    the policy, the exception of a refused root, the return after the
    engine succeeded or failed) the log mask of the engine is the one that
    was in force before the call; the raised mask does not outlive it. *)
Theorem log_mask_restored (pkg : Package) (w : World) :
  log_mask (world (check_package_signature eng base pkg w)) = log_mask w.
Proof.
  destruct (gpgcheck_required base pkg) eqn:Eg.
  - rewrite (gate_open pkg w Eg).
    destruct (Z.eq_dec (engine_set_root eng (installroot base)) 0) as [E0 | E0].
    + now destruct (verify_runs pkg w E0) as [_ [_ ->]].
    + now destruct (verify_refused_root pkg w E0) as [_ [_ ->]].
  - now rewrite (gate_closed pkg w Eg).
Qed.

End SignatureCheck.

(* ------------------------------------------------------------------ *)
(** *** Runs of check_package_signature *)

Ltac pick_line :=
  repeat match goal with
         | H : In _ (_ :: _) |- _ => destruct H as [<- | H]
         | H : In _ [] |- _ => destruct H
         end.

Lemma bad_line_is_failed_witness :
  (exists line, In line bad_digest_log /\ finding (get_package_path pkg_bad) line
                /\ contains line ": BAD")
  /\ result (check_package_signature demo_engine base_root pkg_bad world_empty)
     = Ret FAILED.
Proof.
  assert (Hbad : exists line, In line bad_digest_log
                   /\ finding (get_package_path pkg_bad) line
                   /\ contains line ": BAD").
  { exists "    Payload SHA256 digest: BAD (Expected 5f3c but got 91aa)".
    split; [simpl; auto|]. split.
    - apply finding_iff. reflexivity.
    - exists "    Payload SHA256 digest", " (Expected 5f3c but got 91aa)". reflexivity. }
  split; [exact Hbad|].
  apply (bad_line_is_failed demo_engine base_root pkg_bad world_empty
           elevated_mask 1 (get_package_path pkg_bad) bad_digest_log).
  - vm_compute. auto 10.
  - discriminate.
  - exact Hbad.
Defined.

(** C2 as it is worded lets any line set the flags. Here the header line
    ends with [": NOTTRUSTED"], the engine reports a failure, no finding has
    [": BAD"] in it and every finding is recognized: the wording asks for
    [FAILED_NOT_TRUSTED], the code skips the header line and returns
    [FAILED_KEY_MISSING]. *)
Lemma header_ending_counterexample :
  let o := check_package_signature demo_engine base_root pkg_odd world_empty in
  let path := get_package_path pkg_odd in
  In (Call_rpmcliVerifySignatures elevated_mask path 1 header_ending_log) (calls o)
  /\ 1%Z <> RPMRC_OK
  /\ (forall line, In line header_ending_log -> finding path line ->
                   ~ contains line ": BAD")
  /\ (forall line, In line header_ending_log -> finding path line -> recognized line)
  /\ some_line_ends header_ending_log ": NOTTRUSTED"
  /\ result o = Ret FAILED_KEY_MISSING
  /\ result o <> Ret FAILED_NOT_TRUSTED.
Proof.
  cbv zeta. split; [vm_compute; auto 10|]. split; [discriminate|].
  split; [|split; [|split; [|split]]].
  - intros line Hin _. apply find_none. unfold header_ending_log in Hin.
    pick_line; reflexivity.
  - intros line Hin _. apply recognized_b. unfold header_ending_log in Hin.
    pick_line; reflexivity.
  - exists "/pkgs/odd-1.0-1.x86_64.rpm: NOTTRUSTED". split; [simpl; auto|].
    exists "/pkgs/odd-1.0-1.x86_64.rpm". reflexivity.
  - reflexivity.
  - vm_compute. discriminate.
Qed.

Lemma findings_decide_the_failure_witness :
  some_finding_ends (get_package_path pkg_mixed) mixed_log ": NOTTRUSTED"
  /\ some_finding_ends (get_package_path pkg_mixed) mixed_log ": NOKEY"
  /\ result (check_package_signature demo_engine base_root pkg_mixed world_empty)
     = Ret FAILED_NOT_TRUSTED.
Proof.
  assert (Hnt : some_finding_ends (get_package_path pkg_mixed) mixed_log ": NOTTRUSTED").
  { apply existsb_finding. reflexivity. }
  assert (Hnk : some_finding_ends (get_package_path pkg_mixed) mixed_log ": NOKEY").
  { apply existsb_finding. reflexivity. }
  split; [exact Hnt|]. split; [exact Hnk|].
  refine (proj1 (proj2 (findings_decide_the_failure demo_engine base_root pkg_mixed
            world_empty elevated_mask 1 (get_package_path pkg_mixed) mixed_log
            _ _ _) _) Hnt).
  - vm_compute. auto 10.
  - discriminate.
  - intros line Hin _. apply find_none. unfold mixed_log in Hin.
    pick_line; reflexivity.
  - intros line Hin Hf. apply recognized_b. unfold mixed_log in Hin.
    pick_line; try reflexivity.
    exfalso. apply Hf. exists ":". reflexivity.
Defined.

Lemma engine_success_is_ok_witness :
  gpgcheck_required base_root pkg_good = true
  /\ result (check_package_signature demo_engine base_root pkg_good world_empty)
     = Ret OK.
Proof.
  split; [reflexivity|].
  refine (proj1 (engine_success_is_ok demo_engine base_root pkg_good world_empty
            elevated_mask 0 (get_package_path pkg_good) good_log _ _ _)).
  - reflexivity.
  - vm_compute. auto 10.
  - reflexivity.
Defined.

(** C4 as it is worded has verification run whenever the check is not
    switched off. Here the check is required and the session does not take
    the install root: [SignatureCheckError] is thrown and the verify entry
    point is never called. *)
Lemma refused_root_counterexample :
  let o := check_package_signature demo_engine base_relative pkg_bad world_empty in
  ~ gpgcheck_off base_relative pkg_bad
  /\ result o = Throw (SignatureCheckError rootdir_msg "var/chroot")
  /\ calls o = refused_root_calls "var/chroot" (-1)
  /\ never_verifies (calls o).
Proof.
  cbv zeta. split; [|split; [|split]].
  - intros [[H _] | [_ H]]; discriminate H.
  - reflexivity.
  - reflexivity.
  - intros mask path rc logs Hin. vm_compute in Hin.
    repeat (destruct Hin as [Hin | Hin]; try discriminate Hin); contradiction.
Qed.

Lemma policy_gate_witness :
  gpgcheck_off base_root pkg_unchecked
  /\ result (check_package_signature demo_engine base_root pkg_unchecked world_empty)
     = Ret OK
  /\ calls (check_package_signature demo_engine base_root pkg_unchecked world_empty)
     = [].
Proof.
  assert (Hoff : gpgcheck_off base_root pkg_unchecked).
  { right. split; [discriminate | reflexivity]. }
  split; [exact Hoff|].
  destruct (proj1 (policy_gate demo_engine base_root pkg_unchecked world_empty) Hoff)
    as [Hr [Hc _]].
  split; [exact Hr | exact Hc].
Defined.

(* ================================================================== *)
(** ** rpmdb_lookup, key_present and import_key *)

Local Open Scope list_scope.

Section TrustStore.

Variable eng : Engine.
Variable base : Base.

(** The loop returns at the first match, or at the end of the iterator,
    and changes nothing. *)
Lemma rpmdb_lookup_loop_spec (mi : list Header) (key_id : string) (w : World) :
  exists n,
    rpmdb_lookup_loop mi key_id w =
      mkOutcome (Ret (existsb (matches_b key_id) mi)) w (repeat Call_rpmdbNextIterator n)
    /\ stops_at_first_match mi key_id n.
Proof.
  induction mi as [|h mi IH].
  - exists 1. split; [reflexivity|]. right. split; [intros h' []|reflexivity].
  - cbn [rpmdb_lookup_loop existsb]. unfold matches_b at 1, headerGetAsString.
    destruct (RPMTAG_VERSION h =? key_id)%string eqn:E.
    + exists 1. split; [reflexivity|].
      left. exists [], h, mi. apply String.eqb_eq in E.
      repeat split; auto.
    + destruct IH as [n [Hrun Hstop]]. exists (S n). split.
      * unfold bind, emit. rewrite Hrun. reflexivity.
      * apply String.eqb_neq in E.
        destruct Hstop as [[before [h0 [after [-> [Hm [Hb ->]]]]]] | [Hnone ->]].
        -- left. exists (h :: before), h0, after.
           repeat split; auto. intros h' [<- | Hin]; auto.
        -- right. split; [|reflexivity]. intros h' [<- | Hin]; auto.
Qed.

Lemma trusted_iff (db : list Header) (key : KeyInfo) :
  existsb (matches_b (get_short_key_id key)) (pubkey_records db) = true
  <-> trusted db key.
Proof.
  unfold trusted, pubkey_records, matches_b. rewrite existsb_exists. split.
  - intros [h [Hin Hv]]. apply filter_In in Hin. destruct Hin as [Hin Hn].
    exists h. rewrite String.eqb_eq in Hn, Hv. auto.
  - intros [h [Hin [Hn Hv]]]. exists h. split.
    + apply filter_In. split; [exact Hin | now apply String.eqb_eq].
    + now apply String.eqb_eq.
Qed.

Lemma not_trusted_iff (db : list Header) (key : KeyInfo) :
  existsb (matches_b (get_short_key_id key)) (pubkey_records db) = false
  <-> ~ trusted db key.
Proof.
  rewrite <- trusted_iff.
  destruct (existsb (matches_b (get_short_key_id key)) (pubkey_records db));
    split; intros H; congruence.
Qed.

(** [rpmdb_lookup] on an open session: it always returns, with [true]
    exactly for a trusted key, and leaves the world as it was. *)
Lemma rpmdb_lookup_spec (ts : rpmts_s) (key : KeyInfo) (w : World) :
  exists n,
    rpmdb_lookup ts key w =
      mkOutcome (Ret (existsb (matches_b (get_short_key_id key)) (pubkey_records (rpmdb w))))
        w (Call_rpmtsInitIterator "gpg-pubkey"
             :: repeat Call_rpmdbNextIterator n ++ [Call_rpmdbFreeIterator])
    /\ stops_at_first_match (pubkey_records (rpmdb w)) (get_short_key_id key) n.
Proof.
  destruct (rpmdb_lookup_loop_spec (pubkey_records (rpmdb w)) (get_short_key_id key) w)
    as [n [Hrun Hstop]].
  exists n. split; [|exact Hstop].
  unfold rpmdb_lookup, bind, rpmtsInitIterator.
  unfold pubkey_records in Hrun. rewrite Hrun.
  unfold rpmdbFreeIterator, emit, ret. cbn [app]. reflexivity.
Qed.

Lemma import_calls_app (a b : list Event) :
  import_calls (a ++ b) = import_calls a ++ import_calls b.
Proof.
  induction a as [|e a IH]; [reflexivity|].
  destruct e; simpl; rewrite IH; reflexivity.
Qed.

Lemma import_calls_next (n : nat) : import_calls (repeat Call_rpmdbNextIterator n) = [].
Proof. induction n; simpl; auto. Qed.

Lemma next_calls_app (a b : list Event) :
  next_calls (a ++ b) = next_calls a + next_calls b.
Proof.
  induction a as [|e a IH]; [reflexivity|].
  destruct e; simpl; rewrite IH; reflexivity.
Qed.

Lemma next_calls_repeat (n : nat) : next_calls (repeat Call_rpmdbNextIterator n) = n.
Proof. induction n; simpl; auto. Qed.

Lemma lookup_calls_imports (root : string) (n : nat) (then_ : list Event) :
  import_calls (lookup_calls root n then_) = import_calls then_.
Proof.
  unfold lookup_calls. rewrite !import_calls_app, import_calls_next.
  simpl. now rewrite app_nil_r.
Qed.

Lemma lookup_calls_next (root : string) (n : nat) (then_ : list Event) :
  next_calls (lookup_calls root n then_) = n + next_calls then_.
Proof.
  unfold lookup_calls. rewrite !next_calls_app, next_calls_repeat.
  simpl. lia.
Qed.

Lemma no_import_calls (cs : list Event) : import_calls cs = [] -> never_imports cs.
Proof.
  intros H pkt len rc Hin. induction cs as [|e cs IH]; [destruct Hin|].
  destruct Hin as [-> | Hin]; [discriminate H|].
  destruct e; simpl in H; try discriminate H; auto.
Qed.

(** [key_present] once the session took the root. *)
Lemma key_present_run (key : KeyInfo) (w : World) :
  engine_set_root eng (installroot base) = 0%Z ->
  exists n,
    key_present eng base key w =
      mkOutcome (Ret (existsb (matches_b (get_short_key_id key)) (pubkey_records (rpmdb w))))
        w (lookup_calls (installroot base) n [])
    /\ stops_at_first_match (pubkey_records (rpmdb w)) (get_short_key_id key) n.
Proof.
  intros E0.
  destruct (rpmdb_lookup_spec (lookup_session base) key w) as [n [Hrun Hstop]].
  exists n. split; [|exact Hstop].
  unfold key_present, create_transaction, at_scope_exit, bind, ret, throw,
    rpmtsCreate, rpmtsFree, rpmtsSetRootDir, RpmLogGuard_ctor, RpmLogGuard_dtor, emit.
  rewrite E0. cbn [negb fst snd ts_vfylevel]. rewrite !Z.eqb_refl.
  cbn [negb fst snd ts_vfylevel].
  unfold lookup_session in Hrun. rewrite Hrun.
  unfold lookup_calls. cbn [app]. rewrite <- !app_assoc. reflexivity.
Qed.

(** An operation of the trust store whose session does not take the root. *)
Lemma key_present_refused (key : KeyInfo) (w : World) :
  engine_set_root eng (installroot base) <> 0%Z ->
  key_present eng base key w =
    mkOutcome (Throw (SignatureCheckError rootdir_msg (installroot base))) w
      (refused_root_calls (installroot base) (engine_set_root eng (installroot base))).
Proof.
  intros E0. apply Z.eqb_neq in E0.
  unfold key_present, create_transaction, at_scope_exit, bind, ret, throw,
    rpmtsCreate, rpmtsFree, rpmtsSetRootDir, RpmLogGuard_ctor, RpmLogGuard_dtor, emit.
  cbn [negb fst snd ts_vfylevel]. rewrite !E0. reflexivity.
Qed.

Lemma import_key_refused (key : KeyInfo) (w : World) :
  engine_set_root eng (installroot base) <> 0%Z ->
  import_key eng base key w =
    mkOutcome (Throw (SignatureCheckError rootdir_msg (installroot base))) w
      (refused_root_calls (installroot base) (engine_set_root eng (installroot base))).
Proof.
  intros E0. apply Z.eqb_neq in E0.
  unfold import_key, create_transaction, at_scope_exit, bind, ret, throw,
    rpmtsCreate, rpmtsFree, rpmtsSetRootDir, RpmLogGuard_ctor, RpmLogGuard_dtor, emit.
  cbn [negb fst snd ts_vfylevel]. rewrite !E0. reflexivity.
Qed.

(** [import_key] once the session took the root. *)
Lemma import_key_run (key : KeyInfo) (w : World) :
  engine_set_root eng (installroot base) = 0%Z ->
  let r := engine_import eng (lookup_session base) (rpmdb w) (get_pkt key) (get_pkt_len key) in
  exists n,
    stops_at_first_match (pubkey_records (rpmdb w)) (get_short_key_id key) n
    /\ import_key eng base key w =
       if existsb (matches_b (get_short_key_id key)) (pubkey_records (rpmdb w))
       then mkOutcome (Ret false) w (lookup_calls (installroot base) n [])
       else mkOutcome
              (if (fst r =? RPMRC_OK)%Z then Ret true
               else Throw (KeyImportError import_failed_msg (get_url key)))
              (set_rpmdb (snd r) w)
              (lookup_calls (installroot base) n
                 [Call_rpmtsImportPubkey (get_pkt key) (get_pkt_len key) (fst r)]).
Proof.
  intros E0 r. subst r.
  destruct (rpmdb_lookup_spec (lookup_session base) key w) as [n [Hrun Hstop]].
  exists n. split; [exact Hstop|].
  unfold import_key, create_transaction, at_scope_exit, bind, ret, throw,
    rpmtsCreate, rpmtsFree, rpmtsSetRootDir, RpmLogGuard_ctor, RpmLogGuard_dtor, emit.
  cbn [negb fst snd ts_vfylevel]. rewrite !E0, !Z.eqb_refl.
  cbn [negb fst snd ts_vfylevel].
  unfold lookup_session in *. rewrite Hrun.
  destruct (existsb (matches_b (get_short_key_id key)) (pubkey_records (rpmdb w))).
  - cbn [negb]. unfold lookup_calls. cbn [app]. rewrite <- !app_assoc. reflexivity.
  - cbn [negb]. unfold rpmtsImportPubkey.
    destruct (fst (engine_import eng _ (rpmdb w) (get_pkt key) (get_pkt_len key))
              =? RPMRC_OK)%Z;
      cbn [negb]; unfold lookup_calls; cbn [app]; rewrite <- !app_assoc; reflexivity.
Qed.

(** The amended C7. Whenever the session of [key_present] takes the install
    root: [key_present] returns, and returns [true] exactly when some record
    named gpg-pubkey of the database has the short id of the key as its
    version; the iterator is advanced up to the first such record, or to the
    end when there is none (so the answer is [false] when there is no such
    record at all); the world, the database with it, is left as it was and
    the key import is never called. *)
Theorem key_present_iff_trusted (key : KeyInfo) (w : World) :
  engine_set_root eng (installroot base) = 0%Z ->
  let o := key_present eng base key w in
  (result o = Ret true <-> trusted (rpmdb w) key)
  /\ (result o = Ret false <-> ~ trusted (rpmdb w) key)
  /\ stops_at_first_match (pubkey_records (rpmdb w)) (get_short_key_id key)
       (next_calls (calls o))
  /\ (pubkey_records (rpmdb w) = [] -> result o = Ret false)
  /\ world o = w
  /\ never_imports (calls o).
Proof.
  intros E0 o. subst o.
  destruct (key_present_run key w E0) as [n [-> Hstop]]. cbn [result world calls].
  rewrite lookup_calls_next. cbn [next_calls]. rewrite Nat.add_0_r.
  split; [|split; [|split; [exact Hstop | split; [|split; [reflexivity|]]]]].
  - rewrite <- trusted_iff. split; [intros H; now injection H | now intros ->].
  - rewrite <- not_trusted_iff. split; [intros H; now injection H | now intros ->].
  - now intros ->.
  - apply no_import_calls. now rewrite lookup_calls_imports.
Qed.

(** The amended C6. Whenever the session of [import_key] takes the install
    root: for a key that is trusted already, [import_key] returns [false],
    never calls the key import and leaves the world as it was; for a key
    that is not, it calls the key import exactly once, with the packet of
    the key and its length, and returns [true] when the engine accepts, or
    throws [KeyImportError] with the url of the key when the engine does
    not. *)
Theorem import_key_once (key : KeyInfo) (w : World) :
  engine_set_root eng (installroot base) = 0%Z ->
  let o := import_key eng base key w in
  let r := engine_import eng (lookup_session base) (rpmdb w) (get_pkt key)
             (get_pkt_len key) in
  (trusted (rpmdb w) key ->
     result o = Ret false /\ import_calls (calls o) = [] /\ world o = w)
  /\ (~ trusted (rpmdb w) key ->
      import_calls (calls o) = [(get_pkt key, get_pkt_len key, fst r)]
      /\ rpmdb (world o) = snd r
      /\ (fst r = RPMRC_OK -> result o = Ret true)
      /\ (fst r <> RPMRC_OK ->
          result o = Throw (KeyImportError import_failed_msg (get_url key)))).
Proof.
  intros E0 o r. subst o r.
  destruct (import_key_run key w E0) as [n [_ ->]].
  split.
  - intros Ht. apply trusted_iff in Ht. rewrite Ht. cbn [result world calls].
    rewrite lookup_calls_imports. auto.
  - intros Hn. apply not_trusted_iff in Hn. rewrite Hn. cbn [result world calls].
    rewrite lookup_calls_imports. cbn [import_calls].
    split; [reflexivity|]. split; [reflexivity|]. split.
    + intros ->. reflexivity.
    + intros Hrc. apply Z.eqb_neq in Hrc. now rewrite Hrc.
Qed.

End TrustStore.

(* ------------------------------------------------------------------ *)
(** *** Runs of key_present and import_key *)

Lemma demo_key_trusted : trusted (rpmdb world_trusting) demo_key.
Proof. exists demo_pubkey_header. simpl. auto. Qed.

Lemma demo_key_not_trusted : ~ trusted (rpmdb world_empty) demo_key.
Proof. intros [h [[] _]]. Qed.

(** C7 as it is worded makes [key_present] answer for every state of the
    database. Here a record matches the key, the session does not take the
    install root, and [key_present] throws [SignatureCheckError] instead of
    returning [true]. *)
Lemma key_present_counterexample :
  let o := key_present demo_engine base_relative demo_key world_trusting in
  trusted (rpmdb world_trusting) demo_key
  /\ result o = Throw (SignatureCheckError rootdir_msg "var/chroot")
  /\ result o <> Ret true.
Proof.
  cbv zeta. split; [exact demo_key_trusted|].
  split; [reflexivity | vm_compute; discriminate].
Qed.

Lemma key_present_iff_trusted_witness :
  engine_set_root demo_engine (installroot base_root) = 0%Z
  /\ result (key_present demo_engine base_root demo_key world_trusting) = Ret true
  /\ next_calls (calls (key_present demo_engine base_root demo_key world_trusting)) = 1.
Proof.
  split; [reflexivity|].
  split; [|reflexivity].
  apply (proj1 (key_present_iff_trusted demo_engine base_root demo_key world_trusting
                  eq_refl)).
  exact demo_key_trusted.
Defined.

(** C6 as it is worded covers every key. Here the session does not take the
    install root: for the trusted key [import_key] does not return [false],
    and for the key that is not trusted it makes no import call and throws
    neither [KeyImportError] nor returns [true]; both times it throws
    [SignatureCheckError]. *)
Lemma import_key_counterexample :
  let o1 := import_key demo_engine base_relative demo_key world_trusting in
  let o2 := import_key demo_engine base_relative demo_key world_empty in
  trusted (rpmdb world_trusting) demo_key
  /\ result o1 = Throw (SignatureCheckError rootdir_msg "var/chroot")
  /\ result o1 <> Ret false
  /\ ~ trusted (rpmdb world_empty) demo_key
  /\ import_calls (calls o2) = []
  /\ result o2 = Throw (SignatureCheckError rootdir_msg "var/chroot").
Proof.
  cbv zeta. split; [exact demo_key_trusted|].
  split; [reflexivity|]. split; [vm_compute; discriminate|].
  split; [exact demo_key_not_trusted|]. split; reflexivity.
Qed.

Lemma import_key_once_witness :
  engine_set_root demo_engine (installroot base_root) = 0%Z
  /\ ~ trusted (rpmdb world_empty) demo_key
  /\ import_calls (calls (import_key demo_engine base_root demo_key world_empty))
     = [(demo_packet, 4%N, 0%Z)]
  /\ result (import_key demo_engine base_root demo_key world_empty) = Ret true.
Proof.
  split; [reflexivity|]. split; [exact demo_key_not_trusted|].
  destruct (proj2 (import_key_once demo_engine base_root demo_key world_empty eq_refl)
              demo_key_not_trusted) as [Hc [_ [Hok _]]].
  split; [exact Hc | exact (Hok eq_refl)].
Defined.

(* ================================================================== *)
(** ** The constructor of KeyInfo *)

Section KeyMaterial.

Variable eng : Engine.

Lemma KeyInfo_read_run (url path : string) (w : World) :
  KeyInfo_read eng url path w =
  match files w path with
  | None => mkOutcome (Throw (FileSystemError path)) w [Call_File_open path]
  | Some c =>
      mkOutcome
        (if (fst (engine_pgpReadPkts eng (Some c)) =? PGPARMOR_PUBKEY)%Z
         then Ret (key_read eng url path c)
         else Throw (KeyImportError not_armored_msg url))
        w (read_calls eng path c)
  end.
Proof.
  unfold KeyInfo_read, bind, File_open, rawkey2infos, pgpReadPkts, ret, throw.
  destruct (files w path) as [c|] eqn:Ef; [|reflexivity].
  rewrite Ef.
  destruct (fst (engine_pgpReadPkts eng (Some c)) =? PGPARMOR_PUBKEY)%Z;
    reflexivity.
Qed.

Lemma write_file_same (p : string) (c : option (list byte))
    (f : string -> option (list byte)) :
  write_file p c f p = c.
Proof. unfold write_file. now rewrite String.eqb_refl. Qed.

(** The constructor on a local reference: a path, or a [file://] url. *)
Lemma KeyInfo_ctor_local (url : string) (w : World) :
  is_url eng url = false \/ starts_with url "file://" = true ->
  KeyInfo_ctor eng url w =
  KeyInfo_read eng url (if is_url eng url then substr url 7 else url) w.
Proof.
  unfold KeyInfo_ctor. destruct (is_url eng url); intros [H | H];
    try discriminate H; try reflexivity.
  now rewrite H.
Qed.

(** The constructor on a remote reference. *)
Lemma KeyInfo_ctor_remote (url : string) (w : World) :
  remote_url eng url ->
  let p := engine_mkstemp eng "rpmkey" in
  KeyInfo_ctor eng url w =
  match engine_fetch eng url with
  | None =>
      mkOutcome (Throw (FileDownloadError url))
        (set_files (write_file p None (write_file p (Some []) (files w))) w)
        ([TempFile_created p; Call_download url p] ++ [TempFile_removed p])
  | Some c =>
      mkOutcome
        (if (fst (engine_pgpReadPkts eng (Some c)) =? PGPARMOR_PUBKEY)%Z
         then Ret (key_read eng url p c)
         else Throw (KeyImportError not_armored_msg url))
        (set_files
           (write_file p None (write_file p (Some c) (write_file p (Some []) (files w)))) w)
        ([TempFile_created p; Call_download url p] ++ read_calls eng p c
         ++ [TempFile_removed p])
  end.
Proof.
  intros [Hu Hf] p. subst p.
  unfold KeyInfo_ctor. rewrite Hu, Hf.
  unfold bind at 1. unfold TempFile_ctor, at_scope_exit, TempFile_dtor.
  unfold bind, download.
  destruct (engine_fetch eng url) as [c|]; [|reflexivity].
  rewrite KeyInfo_read_run.
  unfold set_files. cbn [files log_mask rpmdb rpm_logs].
  rewrite write_file_same.
  destruct (fst (engine_pgpReadPkts eng (Some c)) =? PGPARMOR_PUBKEY)%Z;
    reflexivity.
Qed.

(** Every reference is local or remote. *)
Lemma local_or_remote (url : string) :
  (is_url eng url = false \/ starts_with url "file://" = true) \/ remote_url eng url.
Proof.
  unfold remote_url.
  destruct (is_url eng url); destruct (starts_with url "file://"); auto.
Qed.

(** A construction either opened a file and read it, or stopped before the
    armor reader and the extractor, on an error that is not [KeyImportError]. *)
Lemma KeyInfo_ctor_cases (url : string) (w : World) :
  let o := KeyInfo_ctor eng url w in
  (exists path c, construction_of eng url path c o)
  \/ ((exists e, result o = Throw e
                 /\ match e with KeyImportError _ _ => False | _ => True end)
      /\ forall e, In e (calls o) ->
           match e with
           | Call_pgpReadPkts _ _ _ | Call_rawkey2infos _ _ => False
           | _ => True
           end).
Proof.
  intros o. subst o.
  destruct (local_or_remote url) as [Hl | Hr].
  - rewrite (KeyInfo_ctor_local url w Hl), KeyInfo_read_run.
    destruct (files w _) as [c|].
    + left. eexists _, c. split; [reflexivity|].
      exists [], []. split; [cbn [app]; now rewrite app_nil_r | intros e []].
    + right. split; [eexists; split; [reflexivity | exact I]|].
      intros e [<- | []]. exact I.
  - rewrite (KeyInfo_ctor_remote url w Hr).
    destruct (engine_fetch eng url) as [c|].
    + left. eexists _, c. split; [reflexivity|].
      eexists _, _. split; [reflexivity|].
      intros e He. cbn [app] in He.
      destruct He as [<- | [<- | [<- | []]]]; exact I.
    + right. split; [eexists; split; [reflexivity | exact I]|].
      intros e He. cbn [app] in He.
      destruct He as [<- | [<- | [<- | []]]]; exact I.
Qed.

(** In the calls of a construction that read [c], the one answer of the
    armor reader and the one of the extractor are those on [c]. *)
Lemma construction_reads (url path : string) (c : list byte) (o : Outcome KeyInfo) :
  construction_of eng url path c o ->
  (forall armor pkt, armor_read (calls o) armor pkt ->
     armor = fst (engine_pgpReadPkts eng (Some c))
     /\ pkt = snd (engine_pgpReadPkts eng (Some c)))
  /\ (forall infos, infos_extracted (calls o) infos ->
        infos = engine_rawkey2infos eng c)
  /\ armor_read (calls o) (fst (engine_pgpReadPkts eng (Some c)))
       (snd (engine_pgpReadPkts eng (Some c)))
  /\ infos_extracted (calls o) (engine_rawkey2infos eng c).
Proof.
  intros [_ [pre [post [Hc Hother]]]].
  assert (Hin : forall e, In e (calls o) ->
            In e (read_calls eng path c) \/ In e (pre ++ post)).
  { intros e He. rewrite Hc in He. rewrite !in_app_iff in *. tauto. }
  split; [|split; [|split]].
  - intros armor pkt [q Hq]. destruct (Hin _ Hq) as [H | H].
    + unfold read_calls in H. simpl in H.
      destruct H as [H | [H | [H | []]]]; try discriminate H.
      injection H as _ <- <-. auto.
    + destruct (Hother _ H).
  - intros infos [q Hq]. destruct (Hin _ Hq) as [H | H].
    + unfold read_calls in H. simpl in H.
      destruct H as [H | [H | [H | []]]]; try discriminate H.
      injection H as _ <-. auto.
    + destruct (Hother _ H).
  - exists path. rewrite Hc. rewrite !in_app_iff. right; left.
    unfold read_calls. simpl. auto.
  - exists path. rewrite Hc. rewrite !in_app_iff. right; left.
    unfold read_calls. simpl. auto.
Qed.




(** The amended C9. For every remote reference, the temporary file that
    holds the downloaded key belongs to the constructor call: it is created
    first, removed last and not before, on every way out of the constructor
    (success, failed download, file that is not a key), so it is gone once
    the constructor is left; the destructor of the object removes nothing. *)
Theorem temp_file_scoped_to_constructor (url : string) (w : World) :
  remote_url eng url ->
  let o := KeyInfo_ctor eng url w in
  let p := engine_mkstemp eng "rpmkey" in
  (exists body,
      calls o = TempFile_created p :: body ++ [TempFile_removed p]
      /\ removes_nothing body)
  /\ files (world o) p = None
  /\ (forall key, calls (KeyInfo_dtor key (world o)) = []).
Proof.
  intros Hr o p. subst o p.
  rewrite (KeyInfo_ctor_remote url w Hr).
  destruct (engine_fetch eng url) as [c|]; cbn [result world calls].
  - split; [|split; [|reflexivity]].
    + exists (Call_download url (engine_mkstemp eng "rpmkey")
              :: read_calls eng (engine_mkstemp eng "rpmkey") c).
      split; [reflexivity|].
      intros q Hq. unfold read_calls in Hq. simpl in Hq.
      repeat (destruct Hq as [Hq | Hq]; try discriminate Hq). exact Hq.
    + unfold set_files. cbn [files]. apply write_file_same.
  - split; [|split; [|reflexivity]].
    + exists [Call_download url (engine_mkstemp eng "rpmkey")].
      split; [reflexivity|].
      intros q Hq. simpl in Hq.
      repeat (destruct Hq as [Hq | Hq]; try discriminate Hq). exact Hq.
    + unfold set_files. cbn [files]. apply write_file_same.
Qed.


End KeyMaterial.

(* ------------------------------------------------------------------ *)
(** *** Runs of the constructor *)

Lemma demo_url_remote : remote_url demo_engine "https://keys.example.org/demo.asc".
Proof. split; reflexivity. Qed.


(** C9 as it is worded keeps the temporary file for the whole life of the
    object. Here the key is remote and the construction succeeds: the object
    is alive, its [key_path] is the temporary file, and the file is gone
    already, removed by the last call of the constructor. *)
Lemma temp_file_counterexample :
  let o := KeyInfo_ctor demo_engine "https://keys.example.org/demo.asc" world_empty in
  remote_url demo_engine "https://keys.example.org/demo.asc"
  /\ exists key,
       result o = Ret key
       /\ key_path key = "/tmp/rpmkey.a1b2c3"
       /\ In (TempFile_created (key_path key)) (calls o)
       /\ In (TempFile_removed (key_path key)) (calls o)
       /\ files (world o) (key_path key) = None.
Proof.
  cbv zeta. split; [exact demo_url_remote|].
  eexists. split; [reflexivity|]. split; [reflexivity|].
  split; [vm_compute; auto 10|]. split; [vm_compute; auto 10 | reflexivity].
Qed.

Lemma temp_file_scoped_to_constructor_witness :
  remote_url demo_engine "https://keys.example.org/demo.asc"
  /\ files (world (KeyInfo_ctor demo_engine "https://keys.example.org/demo.asc"
                     world_empty))
       (engine_mkstemp demo_engine "rpmkey") = None.
Proof.
  split; [exact demo_url_remote|].
  exact (proj1 (proj2 (temp_file_scoped_to_constructor demo_engine
                         "https://keys.example.org/demo.asc" world_empty
                         demo_url_remote))).
Defined.


(* ================================================================== *)
(** ** More on the loop over the log lines *)

Section LoopLaws.

Variable path : string.

(** The loop in closed form: [FAILED] when some finding is fatal, the
    precedence of the three flags when none is. *)
Lemma scan_closed_form (logs : list string) (mk nt ns : bool) :
  scan_rpm_logs path logs mk nt ns =
  if existsb (fatal_b path) logs then FAILED
  else final_verdict (mk || existsb (finding_ends_b path ": NOKEY") logs)
                     (nt || existsb (finding_ends_b path ": NOTTRUSTED") logs)
                     (ns || existsb (finding_ends_b path ": NOTFOUND") logs).
Proof.
  revert mk nt ns. induction logs as [|l rest IH]; intros mk nt ns.
  - simpl. now rewrite !orb_false_r.
  - cbn [scan_rpm_logs existsb]. unfold fatal_b at 1, finding_ends_b at 1 3 5.
    unfold recognized_ending_b.
    destruct (starts_with l path) eqn:Eh.
    + cbn [negb andb orb]. apply IH.
    + cbn [negb andb]. destruct (find l ": BAD") eqn:Eb; [reflexivity|].
      cbn [orb].
      destruct (ends_with l ": NOKEY") eqn:E1.
      { destruct (nokey_excludes l E1) as [-> [-> _]]. cbn [negb orb].
        rewrite IH. now rewrite !orb_true_r. }
      destruct (ends_with l ": NOTTRUSTED") eqn:E2.
      { destruct (nottrusted_excludes l E2) as [_ [-> _]]. cbn [negb orb].
        rewrite IH. now rewrite !orb_true_r. }
      destruct (ends_with l ": NOTFOUND") eqn:E3.
      { cbn [negb orb]. rewrite IH. now rewrite !orb_true_r. }
      destruct (ends_with l ": OK") eqn:E4; cbn [negb orb]; [apply IH | reflexivity].
Qed.

(** The loop over the log lines never answers [OK], whatever the lines and
    whatever the flags it starts with. *)
Lemma scan_never_ok (logs : list string) (mk nt ns : bool) :
  scan_rpm_logs path logs mk nt ns <> OK.
Proof.
  rewrite scan_closed_form.
  destruct (existsb (fatal_b path) logs); [discriminate|].
  unfold final_verdict.
  destruct (nt || _); [discriminate|].
  destruct (mk || _); [discriminate|].
  destruct (ns || _); discriminate.
Qed.

(** X1. The lines that begin with the path of the package count for
    nothing: the loop gives the same verdict on a log and on its findings
    alone. *)
Theorem header_lines_are_ignored (logs : list string) (mk nt ns : bool) :
  scan_rpm_logs path (findings path logs) mk nt ns
  = scan_rpm_logs path logs mk nt ns.
Proof.
  revert mk nt ns. induction logs as [|l rest IH]; intros mk nt ns;
    [reflexivity|].
  unfold findings in *. cbn [filter scan_rpm_logs].
  destruct (starts_with l path) eqn:Eh; cbn [negb]; [apply IH|].
  cbn [scan_rpm_logs]. rewrite Eh.
  destruct (find l ": BAD"); [reflexivity|].
  destruct (ends_with l ": NOKEY"); [apply IH|].
  destruct (ends_with l ": NOTTRUSTED"); [apply IH|].
  destruct (ends_with l ": NOTFOUND"); [apply IH|].
  destruct (ends_with l ": OK"); cbn [negb]; [apply IH | reflexivity].
Qed.

Lemma existsb_permutation (f : string -> bool) (l l' : list string) :
  Permutation l l' -> existsb f l = existsb f l'.
Proof.
  induction 1 as [| x l l' _ IH | x y l | l l' l'' _ IH1 _ IH2]; simpl.
  - reflexivity.
  - now rewrite IH.
  - destruct (f x), (f y); reflexivity.
  - now rewrite IH1.
Qed.

(** X2. The verdict of the loop does not depend on the order of the log
    lines, although the loop returns at the first fatal finding: every early
    return gives [FAILED], and the flags only accumulate. *)
Theorem scan_order_irrelevant (logs logs' : list string) (mk nt ns : bool) :
  Permutation logs logs' ->
  scan_rpm_logs path logs mk nt ns = scan_rpm_logs path logs' mk nt ns.
Proof.
  intros Hp. rewrite !scan_closed_form.
  rewrite (existsb_permutation (fatal_b path) _ _ Hp).
  rewrite (existsb_permutation (finding_ends_b path ": NOKEY") _ _ Hp).
  rewrite (existsb_permutation (finding_ends_b path ": NOTTRUSTED") _ _ Hp).
  rewrite (existsb_permutation (finding_ends_b path ": NOTFOUND") _ _ Hp).
  reflexivity.
Qed.

(** X3. Findings that end with [": OK"] and have no [": BAD"] in them change
    nothing: the verdict with such a line added anywhere is the verdict
    without it. *)
Theorem ok_lines_change_nothing (before after : list string) (line : string)
    (mk nt ns : bool) :
  has_suffix line ": OK" ->
  ~ contains line ": BAD" ->
  scan_rpm_logs path (before ++ line :: after) mk nt ns
  = scan_rpm_logs path (before ++ after) mk nt ns.
Proof.
  intros Hok Hnb. apply ends_with_spec in Hok. apply find_none in Hnb.
  assert (E1 : ends_with line ": NOKEY" = false)
    by (destruct (ends_with line ": NOKEY") eqn:E; [clash E Hok | reflexivity]).
  assert (E2 : ends_with line ": NOTTRUSTED" = false)
    by (destruct (ends_with line ": NOTTRUSTED") eqn:E; [clash E Hok | reflexivity]).
  assert (E3 : ends_with line ": NOTFOUND" = false)
    by (destruct (ends_with line ": NOTFOUND") eqn:E; [clash E Hok | reflexivity]).
  rewrite !scan_closed_form, !existsb_app. cbn [existsb].
  unfold fatal_b at 2, finding_ends_b at 2 5 8, recognized_ending_b.
  rewrite Hnb, Hok, E1, E2, E3.
  cbn [negb orb]. rewrite !andb_false_r. reflexivity.
Qed.

End LoopLaws.

(** With an empty path every line begins with the path, so every line is
    skipped: the loop ends with no flag set. *)
Lemma empty_path_skips_every_line (logs : list string) :
  scan_rpm_logs EmptyString logs false false false = FAILED.
Proof.
  induction logs as [|l rest IH]; [reflexivity|].
  cbn [scan_rpm_logs].
  assert (Hs : starts_with l EmptyString = true)
    by (apply starts_with_spec; exists l; reflexivity).
  rewrite Hs. exact IH.
Qed.

(* ================================================================== *)
(** ** More on check_package_signature *)

Section CheckLaws.

Variable eng : Engine.
Variable base : Base.

(** The three ways through [check_package_signature]. *)
Lemma check_cases (pkg : Package) (w : World) :
  let o := check_package_signature eng base pkg w in
  (gpgcheck_required base pkg = false /\ o = mkOutcome (Ret OK) w [])
  \/ (gpgcheck_required base pkg = true
      /\ engine_set_root eng (installroot base) <> 0%Z
      /\ result o = Throw (SignatureCheckError rootdir_msg (installroot base))
      /\ calls o = refused_root_calls (installroot base)
                     (engine_set_root eng (installroot base)))
  \/ (gpgcheck_required base pkg = true
      /\ engine_set_root eng (installroot base) = 0%Z
      /\ result o =
           (if (fst (engine_answer eng base pkg) =? RPMRC_OK)%Z then Ret OK
            else Ret (scan_rpm_logs (get_package_path pkg)
                        (snd (engine_answer eng base pkg)) false false false))
      /\ calls o = verification_calls base pkg (log_mask w) (engine_answer eng base pkg)).
Proof.
  intros o. subst o.
  destruct (gpgcheck_required base pkg) eqn:Eg.
  - rewrite (gate_open eng base pkg w Eg).
    destruct (Z.eq_dec (engine_set_root eng (installroot base)) 0) as [E0 | E0].
    + right; right. destruct (verify_runs eng base pkg w E0) as [Hr [Hc _]]. auto.
    + right; left. destruct (verify_refused_root eng base pkg w E0) as [Hr [Hc _]]. auto.
  - left. split; [reflexivity | apply gate_closed, Eg].
Qed.

Lemma verify_world (pkg : Package) (w : World) :
  let o := verify_and_classify eng base pkg w in
  rpmdb (world o) = rpmdb w /\ files (world o) = files w.
Proof.
  run.
  destruct (engine_set_root eng (installroot base) =? 0)%Z; run; [|auto].
  destruct (fst (engine_verify eng _ _ _) =? RPMRC_OK)%Z; run; auto.
Qed.

(** X4. [check_package_signature] answers [OK] in two cases only: the check
    is switched off for the package, or the session took the install root
    and the engine reported success. No log line turns a failure of the
    engine into [OK]. *)
Theorem ok_only_by_policy_or_engine (pkg : Package) (w : World) :
  result (check_package_signature eng base pkg w) = Ret OK
  <-> gpgcheck_required base pkg = false
      \/ (engine_set_root eng (installroot base) = 0%Z
          /\ fst (engine_answer eng base pkg) = RPMRC_OK).
Proof.
  destruct (check_cases pkg w) as [[Eg ->] | [[Eg [E0 [-> _]]] | [Eg [E0 [-> _]]]]].
  - cbn [result]. tauto.
  - split; [discriminate|]. intros [H | [H _]]; congruence.
  - destruct (fst (engine_answer eng base pkg) =? RPMRC_OK)%Z eqn:E.
    + apply Z.eqb_eq in E. tauto.
    + apply Z.eqb_neq in E. split.
      * intros H. injection H as H. exfalso. exact (scan_never_ok _ _ _ _ _ H).
      * intros [H | [_ H]]; congruence.
Qed.

(** X5. The only exception that leaves [check_package_signature] is the
    [SignatureCheckError] of a required check whose session does not take
    the install root; it carries the install root. A failed verification is
    never thrown, it is returned. *)
Theorem only_a_refused_root_throws (pkg : Package) (w : World) (e : Exn) :
  result (check_package_signature eng base pkg w) = Throw e
  <-> e = SignatureCheckError rootdir_msg (installroot base)
      /\ gpgcheck_required base pkg = true
      /\ engine_set_root eng (installroot base) <> 0%Z.
Proof.
  destruct (check_cases pkg w) as [[Eg ->] | [[Eg [E0 [-> _]]] | [Eg [E0 [-> _]]]]].
  - cbn [result]. split; [discriminate | intros [_ [H _]]; congruence].
  - split; [intros H; injection H as <-; auto | intros [-> _]; reflexivity].
  - split; [|intros [_ [_ H]]; contradiction].
    destruct (fst (engine_answer eng base pkg) =? RPMRC_OK)%Z; discriminate.
Qed.

(** X6. A check that is required holds the log guard around one session on
    every way out, the exception included: the guard is taken first, the
    session created next, the session freed before the guard is given back,
    and nothing in between starts or ends another one. A check that is not
    required calls nothing. *)
Theorem check_calls_are_bracketed (pkg : Package) (w : World) :
  let o := check_package_signature eng base pkg w in
  (gpgcheck_required base pkg = false -> calls o = [])
  /\ (gpgcheck_required base pkg = true -> bracketed (calls o)).
Proof.
  intros o. subst o.
  destruct (check_cases pkg w) as [[Eg ->] | [[Eg [E0 [_ ->]]] | [Eg [E0 [_ ->]]]]];
    (split; [intros H; try congruence; reflexivity | intros H; try congruence]).
  - exists [Call_rpmtsSetRootDir (installroot base)
              (engine_set_root eng (installroot base))].
    split; [reflexivity|].
    intros e [<- | []]. exact I.
  - exists [Call_rpmtsSetRootDir (installroot base) 0;
            Call_rpmlogSetMask elevated_mask;
            Call_rpmtsSetVfyLevel RPMSIG_SIGNATURE_TYPE;
            Call_rpmcliVerifySignatures elevated_mask (get_package_path pkg)
              (fst (engine_answer eng base pkg)) (snd (engine_answer eng base pkg));
            Call_rpmlogSetMask (log_mask w)].
    split; [reflexivity|].
    intros e He. simpl in He.
    repeat (destruct He as [<- | He]; [exact I|]). destruct He.
Qed.

(** X7. The verify entry point is called at most once in a check, and any
    call to it is on the path of the package, under the mask 127 (every
    priority up to informational), for a session set to the install root
    and to the signature level; the mask is set either never, or twice:
    raised to 127, then put back to what it was. *)
Theorem verify_call_shape (pkg : Package) (w : World) :
  let o := check_package_signature eng base pkg w in
  verify_count (calls o) <= 1
  /\ (mask_sets (calls o) = [] \/ mask_sets (calls o) = [127%Z; log_mask w])
  /\ (forall mask path rc logs,
        In (Call_rpmcliVerifySignatures mask path rc logs) (calls o) ->
        mask = 127%Z /\ path = get_package_path pkg
        /\ (rc, logs) = engine_verify eng
                          (mkTs (Some (installroot base)) (Some 2%Z)) 127
                          (get_package_path pkg)).
Proof.
  intros o. subst o. split; [|split].
  - destruct (check_cases pkg w) as [[Eg ->] | [[Eg [E0 [_ ->]]] | [Eg [E0 [_ ->]]]]];
      simpl; lia.
  - destruct (check_cases pkg w) as [[Eg ->] | [[Eg [E0 [_ ->]]] | [Eg [E0 [_ ->]]]]];
      simpl; auto.
  - intros mask path rc logs Hin.
    destruct (verify_call_inv eng base pkg w mask path rc logs Hin)
      as [_ [_ [-> [-> [-> ->]]]]].
    split; [reflexivity|]. split; [reflexivity|].
    unfold engine_answer, verify_session. now destruct (engine_verify eng _ _ _).
Qed.

(** X8. [check_package_signature] leaves the rpm database and the files as
    they were, and calls neither the key import nor the downloader nor makes
    a temporary file. *)
Theorem check_changes_no_data (pkg : Package) (w : World) :
  let o := check_package_signature eng base pkg w in
  rpmdb (world o) = rpmdb w /\ files (world o) = files w
  /\ never_imports (calls o) /\ stays_local (calls o).
Proof.
  intros o. subst o.
  assert (Hw : rpmdb (world (check_package_signature eng base pkg w)) = rpmdb w
               /\ files (world (check_package_signature eng base pkg w)) = files w).
  { destruct (gpgcheck_required base pkg) eqn:Eg.
    - rewrite (gate_open eng base pkg w Eg). apply verify_world.
    - rewrite (gate_closed eng base pkg w Eg). auto. }
  destruct Hw as [Hdb Hf]. split; [exact Hdb|]. split; [exact Hf|].
  destruct (check_cases pkg w) as [[Eg ->] | [[Eg [E0 [_ ->]]] | [Eg [E0 [_ ->]]]]].
  - split; [intros ? ? ? []| intros ? []].
  - split.
    + apply no_import_calls. reflexivity.
    + intros e He. simpl in He.
      repeat (destruct He as [<- | He]; [exact I|]). destruct He.
  - split.
    + apply no_import_calls. reflexivity.
    + intros e He. simpl in He.
      repeat (destruct He as [<- | He]; [exact I|]). destruct He.
Qed.

(** X9. For a package with an empty path, a failure of the engine is always
    answered with plain [FAILED]: every log line begins with the empty
    path, so the loop skips them all, a missing key or a [": BAD"] line
    included. *)
Theorem empty_path_always_failed (pkg : Package) (w : World) (mask rc : Z)
    (path : string) (logs : list string) :
  get_package_path pkg = EmptyString ->
  In (Call_rpmcliVerifySignatures mask path rc logs)
     (calls (check_package_signature eng base pkg w)) ->
  rc <> RPMRC_OK ->
  result (check_package_signature eng base pkg w) = Ret FAILED.
Proof.
  intros Hp Hin Hrc.
  destruct (verify_call_inv eng base pkg w mask path rc logs Hin)
    as [Eg [E0 [_ [_ [-> _]]]]].
  rewrite (gate_open eng base pkg w Eg).
  destruct (verify_runs eng base pkg w E0) as [-> _].
  apply Z.eqb_neq in Hrc. rewrite Hrc, Hp.
  now rewrite empty_path_skips_every_line.
Qed.

End CheckLaws.

(* ================================================================== *)
(** ** More on the short key id, the session and the trust store *)

Lemma substring_length (s : string) (n m : nat) :
  n + m <= String.length s -> String.length (substring n m s) = m.
Proof.
  revert n m; induction s as [|c s IH]; intros [|n] [|m]; simpl; intros H;
    try reflexivity; try lia.
  - rewrite IH by lia. reflexivity.
  - apply IH. lia.
  - apply IH. lia.
Qed.

(** X10. The short key id is made of the last characters of the key id:
    eight of them when the id has more than eight, the whole id otherwise. *)
Theorem short_key_id_is_the_tail (key : KeyInfo) :
  has_suffix (key_id key) (get_short_key_id key)
  /\ String.length (get_short_key_id key) = Nat.min 8 (String.length (key_id key)).
Proof.
  unfold get_short_key_id, substr.
  destruct (8 <? String.length (key_id key))%nat eqn:E.
  - apply Nat.ltb_lt in E. split.
    + exists (substring 0 (String.length (key_id key) - 8) (key_id key)).
      apply substring_split.
    + rewrite substring_length by lia. lia.
  - apply Nat.ltb_ge in E. split; [exists EmptyString; reflexivity | lia].
Qed.

Lemma short_key_id_of_tail (key : KeyInfo) (a s : string) :
  key_id key = (a ++ s)%string -> String.length s = 8 ->
  get_short_key_id key = s.
Proof.
  intros Hk Hs. unfold get_short_key_id, substr. rewrite Hk, length_app, Hs.
  destruct (8 <? String.length a + 8)%nat eqn:E.
  - replace (String.length a + 8 - 8) with (String.length a) by lia.
    replace (String.length a + 8 - String.length a) with (String.length s) by lia.
    rewrite substring_skip. apply substring_whole.
  - apply Nat.ltb_ge in E. destruct a; [reflexivity | simpl in E; lia].
Qed.

Section StoreLaws.

Variable eng : Engine.
Variable base : Base.

(** X11. [create_transaction] leaves the world as it was. When the engine
    takes the install root it returns a session set to that root, still
    open for the caller; when it does not, it throws [SignatureCheckError]
    with the install root and frees the session it created on the way out. *)
Theorem create_transaction_outcomes (w : World) :
  let o := create_transaction eng base w in
  let rc := engine_set_root eng (installroot base) in
  world o = w
  /\ (rc = 0%Z ->
      result o = Ret (mkTs (Some (installroot base)) None)
      /\ calls o = [Call_rpmtsCreate; Call_rpmtsSetRootDir (installroot base) 0])
  /\ (rc <> 0%Z ->
      result o = Throw (SignatureCheckError rootdir_msg (installroot base))
      /\ calls o = [Call_rpmtsCreate; Call_rpmtsSetRootDir (installroot base) rc;
                    Call_rpmtsFree]).
Proof.
  intros o rc. subst o rc.
  unfold create_transaction, at_scope_exit, bind, ret, throw,
    rpmtsCreate, rpmtsFree, rpmtsSetRootDir, emit.
  cbn [negb fst snd ts_vfylevel].
  destruct (engine_set_root eng (installroot base) =? 0)%Z eqn:E;
    cbn [negb result world calls app].
  - apply Z.eqb_eq in E. split; [reflexivity|]. split; [|intros H; contradiction].
    intros _. rewrite E. auto.
  - apply Z.eqb_neq in E. split; [reflexivity|]. split; [intros H; contradiction|].
    auto.
Qed.

Lemma key_present_by_short_id (k1 k2 : KeyInfo) (w : World) :
  get_short_key_id k1 = get_short_key_id k2 ->
  key_present eng base k1 w = key_present eng base k2 w.
Proof.
  intros H. unfold key_present, rpmdb_lookup. now rewrite H.
Qed.

(** X12. Only the last eight characters of the key id count for the trust
    store. Two keys whose ids end with the same eight characters get the
    same outcome from [key_present]; and once one of them is trusted,
    [import_key] of the other returns [false] and imports nothing, whatever
    its packet and the rest of its id. *)
Theorem short_id_collision (k1 k2 : KeyInfo) (w : World) (a b s : string) :
  key_id k1 = (a ++ s)%string ->
  key_id k2 = (b ++ s)%string ->
  String.length s = 8 ->
  key_present eng base k1 w = key_present eng base k2 w
  /\ (engine_set_root eng (installroot base) = 0%Z ->
      trusted (rpmdb w) k1 ->
      result (import_key eng base k2 w) = Ret false
      /\ import_calls (calls (import_key eng base k2 w)) = []).
Proof.
  intros H1 H2 Hs.
  assert (E : get_short_key_id k1 = get_short_key_id k2).
  { rewrite (short_key_id_of_tail k1 a s H1 Hs).
    now rewrite (short_key_id_of_tail k2 b s H2 Hs). }
  split; [now apply key_present_by_short_id|].
  intros E0 Ht.
  assert (Ht2 : trusted (rpmdb w) k2).
  { destruct Ht as [h [Hin [Hn Hv]]]. exists h. rewrite <- E. auto. }
  apply trusted_iff in Ht2.
  destruct (import_key_run eng base k2 w E0) as [n [_ ->]].
  rewrite Ht2. cbn [result calls]. rewrite lookup_calls_imports. auto.
Qed.

Lemma repeat_in (e x : Event) (n : nat) : In e (repeat x n) -> e = x.
Proof. intros H. exact (repeat_spec n x e H). Qed.

Lemma lookup_calls_bracketed (root : string) (n : nat) (then_ : list Event) :
  no_session_or_guard then_ -> bracketed (lookup_calls root n then_).
Proof.
  intros Hthen.
  exists ([Call_rpmtsSetRootDir root 0; Call_rpmtsInitIterator "gpg-pubkey"]
          ++ repeat Call_rpmdbNextIterator n ++ [Call_rpmdbFreeIterator] ++ then_).
  split.
  - unfold lookup_calls. cbn [app]. rewrite <- !app_assoc. reflexivity.
  - intros e He. rewrite !in_app_iff in He.
    destruct He as [[<- | [<- | []]] | [He | [[<- | []] | He]]]; try exact I.
    + apply repeat_in in He. now subst e.
    + now apply Hthen.
Qed.

Lemma refused_root_calls_bracketed (root : string) (rc : Z) :
  bracketed (refused_root_calls root rc).
Proof.
  exists [Call_rpmtsSetRootDir root rc]. split; [reflexivity|].
  intros e [<- | []]. exact I.
Qed.

Lemma lookup_calls_iterates (root : string) (n : nat) (then_ : list Event) :
  (forall e, In e then_ ->
     match e with
     | Call_rpmtsInitIterator _ | Call_rpmdbNextIterator
     | Call_rpmdbFreeIterator => False
     | _ => True
     end) ->
  iterates (lookup_calls root n then_) n.
Proof.
  intros Hthen.
  exists [RpmLogGuard_acquire; Call_rpmtsCreate; Call_rpmtsSetRootDir root 0],
         (then_ ++ [Call_rpmtsFree; RpmLogGuard_release]).
  split.
  - unfold lookup_calls. cbn [app]. reflexivity.
  - intros e He. rewrite !in_app_iff in He.
    destruct He as [[<- | [<- | [<- | []]]] | [He | [<- | [<- | []]]]]; try exact I.
    now apply Hthen.
Qed.

Lemma stops_at_advances (records : list Header) (key_id : string) (n : nat) :
  stops_at_first_match records key_id n -> n = advances records key_id.
Proof.
  revert n. induction records as [|x t IH]; intros n Hn.
  - destruct Hn as [[b [h [a [E _]]]] | [_ ->]]; [|reflexivity].
    destruct b; discriminate E.
  - cbn [advances]. destruct (RPMTAG_VERSION x =? key_id)%string eqn:Ex.
    + apply String.eqb_eq in Ex.
      destruct Hn as [[b [h [a [E [V [N ->]]]]]] | [N _]].
      * destruct b as [|y b]; [reflexivity|].
        injection E as <- _. exfalso. apply (N x); [now left | exact Ex].
      * exfalso. apply (N x); [now left | exact Ex].
    + apply String.eqb_neq in Ex.
      destruct Hn as [[b [h [a [E [V [N ->]]]]]] | [N ->]].
      * destruct b as [|y b].
        -- injection E as <- _. contradiction.
        -- injection E as <- E. cbn [List.length]. f_equal. apply IH.
           left. exists b, h, a. repeat split; auto.
           intros h' Hh. apply N. now right.
      * cbn [List.length]. f_equal. apply IH. right. split; [|reflexivity].
        intros h' Hh. apply N. now right.
Qed.

(** The calls of the two operations, in every case. *)
Lemma store_calls (key : KeyInfo) (w : World) :
  let root := installroot base in
  (engine_set_root eng root <> 0%Z
   /\ calls (key_present eng base key w) = refused_root_calls root (engine_set_root eng root)
   /\ calls (import_key eng base key w) = refused_root_calls root (engine_set_root eng root))
  \/ (engine_set_root eng root = 0%Z
      /\ exists n then_,
           calls (key_present eng base key w) = lookup_calls root n []
           /\ calls (import_key eng base key w) = lookup_calls root n then_
           /\ 1 <= n <= S (List.length (pubkey_records (rpmdb w)))
           /\ (then_ = []
               \/ exists rc, then_ = [Call_rpmtsImportPubkey (get_pkt key)
                                        (get_pkt_len key) rc])).
Proof.
  intros root. subst root.
  destruct (Z.eq_dec (engine_set_root eng (installroot base)) 0) as [E0 | E0].
  - right. split; [exact E0|].
    destruct (key_present_run eng base key w E0) as [n [Hk Hstop]].
    destruct (import_key_run eng base key w E0) as [n' [Hstop' Hi]].
    assert (En : n' = n).
    { rewrite (stops_at_advances _ _ _ Hstop'), (stops_at_advances _ _ _ Hstop).
      reflexivity. }
    subst n'.
    assert (Hb : 1 <= n <= S (List.length (pubkey_records (rpmdb w)))).
    { destruct Hstop as [[b2 [h2 [a2 [E2 [_ [_ ->]]]]]] | [_ ->]]; [|lia].
      rewrite E2, List.length_app. simpl. lia. }
    rewrite Hi, Hk. cbn [calls].
    destruct (existsb (matches_b (get_short_key_id key)) (pubkey_records (rpmdb w))).
    + exists n, []. cbn [calls]. auto.
    + eexists n, _. cbn [calls]. split; [reflexivity|]. split; [reflexivity|].
      split; [exact Hb|]. right. eexists. reflexivity.
  - left. rewrite (key_present_refused eng base key w E0),
      (import_key_refused eng base key w E0). auto.
Qed.

(** X13. On every way out, the exception included, [key_present] and
    [import_key] hold the log guard around one session: guard first,
    session next, session freed before the guard is given back. Neither
    calls the verify entry point nor sets the log mask. *)
Theorem store_calls_are_bracketed (key : KeyInfo) (w : World) :
  let p := calls (key_present eng base key w) in
  let i := calls (import_key eng base key w) in
  bracketed p /\ bracketed i
  /\ never_verifies p /\ never_verifies i
  /\ never_sets_mask p /\ never_sets_mask i.
Proof.
  cbv zeta.
  assert (Hb : forall cs, bracketed cs ->
            (forall e, In e cs ->
               match e with
               | Call_rpmcliVerifySignatures _ _ _ _ | Call_rpmlogSetMask _ => False
               | _ => True
               end) ->
            bracketed cs /\ never_verifies cs /\ never_sets_mask cs).
  { intros cs Hbr Hno. split; [exact Hbr|]. split.
    - intros m q rc l Hin. exact (Hno _ Hin).
    - intros m Hin. exact (Hno _ Hin). }
  assert (Hl : forall n then_,
            (then_ = [] \/ exists rc, then_ = [Call_rpmtsImportPubkey (get_pkt key)
                                                 (get_pkt_len key) rc]) ->
            let cs := lookup_calls (installroot base) n then_ in
            bracketed cs /\ never_verifies cs /\ never_sets_mask cs).
  { intros n then_ Hthen cs. subst cs. apply Hb.
    - apply lookup_calls_bracketed.
      destruct Hthen as [-> | [rc ->]]; intros e He;
        [destruct He | destruct He as [<- | []]; exact I].
    - intros e He. unfold lookup_calls in He. rewrite !in_app_iff in He.
      destruct He as [[<- | [<- | [<- | [<- | []]]]]
                     | [He | [[<- | []] | [He | [<- | [<- | []]]]]]]; try exact I.
      + apply repeat_in in He. now subst e.
      + destruct Hthen as [-> | [rc ->]];
          [destruct He | destruct He as [<- | []]; exact I]. }
  assert (Hr : let cs := refused_root_calls (installroot base)
                           (engine_set_root eng (installroot base)) in
               bracketed cs /\ never_verifies cs /\ never_sets_mask cs).
  { apply Hb; [apply refused_root_calls_bracketed|].
    intros e He. simpl in He.
    repeat (destruct He as [<- | He]; [exact I|]). destruct He. }
  destruct (store_calls key w) as [[_ [-> ->]] | [_ [n [then_ [-> [-> [_ Hthen]]]]]]].
  - destruct Hr as [H1 [H2 H3]]. auto 10.
  - destruct (Hl n [] (or_introl eq_refl)) as [H1 [H2 H3]].
    destruct (Hl n then_ Hthen) as [H4 [H5 H6]]. auto 10.
Qed.

(** X14. When the session takes the install root, [key_present] and
    [import_key] open the iterator of the database once, advance it at
    least once and at most once more than there are gpg-pubkey records, and
    free it once, also when the loop is left at a match; both advance it
    the same number of times. *)
Theorem iterator_is_always_freed (key : KeyInfo) (w : World) :
  engine_set_root eng (installroot base) = 0%Z ->
  exists n,
    iterates (calls (key_present eng base key w)) n
    /\ iterates (calls (import_key eng base key w)) n
    /\ 1 <= n <= S (List.length (pubkey_records (rpmdb w))).
Proof.
  intros E0.
  destruct (store_calls key w) as [[E _] | [_ [n [then_ [-> [-> [Hn Hthen]]]]]]];
    [contradiction|].
  exists n. split; [|split; [|exact Hn]].
  - apply lookup_calls_iterates. intros e [].
  - apply lookup_calls_iterates.
    destruct Hthen as [-> | [rc ->]]; intros e He;
      [destruct He | destruct He as [<- | []]; exact I].
Qed.

(** X15. [import_key] and [key_present] agree on every key and world:
    [import_key] returns [false] exactly when [key_present] returns [true];
    it calls the key import, once and with the packet of the key, exactly
    when [key_present] returns [false]; and when [key_present] throws,
    [import_key] throws the same exception and imports nothing. *)
Theorem import_key_agrees_with_key_present (key : KeyInfo) (w : World) :
  let p := key_present eng base key w in
  let i := import_key eng base key w in
  (result p = Ret true <-> result i = Ret false)
  /\ (result p = Ret false
      <-> exists rc, import_calls (calls i) = [(get_pkt key, get_pkt_len key, rc)])
  /\ (forall e, result p = Throw e ->
        result i = Throw e /\ import_calls (calls i) = []).
Proof.
  cbv zeta.
  destruct (Z.eq_dec (engine_set_root eng (installroot base)) 0) as [E0 | E0].
  - destruct (key_present_run eng base key w E0) as [n [-> _]].
    destruct (import_key_run eng base key w E0) as [n' [_ ->]].
    cbn [result].
    destruct (existsb (matches_b (get_short_key_id key)) (pubkey_records (rpmdb w)));
      cbn [result calls]; rewrite lookup_calls_imports; cbn [import_calls].
    + split; [tauto|]. split; [|discriminate].
      split; [discriminate | intros [rc H]; discriminate H].
    + split; [|split; [|discriminate]].
      * split; [discriminate|].
        destruct (fst (engine_import eng _ _ _ _) =? RPMRC_OK)%Z; discriminate.
      * split; [intros _; eexists; reflexivity | reflexivity].
  - rewrite (key_present_refused eng base key w E0),
      (import_key_refused eng base key w E0). cbn [result calls].
    split; [split; discriminate|]. split.
    + split; [discriminate | intros [rc H]; discriminate H].
    + intros e H. auto.
Qed.

(** X16. [key_present] leaves the whole world as it was on every way out.
    [import_key] never touches the log mask or the files, and changes the
    database through the key import only: with no import call the world is
    as it was. *)
Theorem store_changes_only_by_import (key : KeyInfo) (w : World) :
  let i := import_key eng base key w in
  world (key_present eng base key w) = w
  /\ log_mask (world i) = log_mask w
  /\ files (world i) = files w
  /\ (import_calls (calls i) = [] -> world i = w).
Proof.
  cbv zeta.
  destruct (Z.eq_dec (engine_set_root eng (installroot base)) 0) as [E0 | E0].
  - destruct (key_present_run eng base key w E0) as [n [-> _]].
    destruct (import_key_run eng base key w E0) as [n' [_ ->]].
    destruct (existsb (matches_b (get_short_key_id key)) (pubkey_records (rpmdb w)));
      cbn [result world calls set_rpmdb log_mask files];
      rewrite lookup_calls_imports; cbn [import_calls]; auto.
    repeat split. discriminate.
  - rewrite (key_present_refused eng base key w E0),
      (import_key_refused eng base key w E0). cbn [world calls]. auto.
Qed.

End StoreLaws.

(* ================================================================== *)
(** ** More on the constructor of KeyInfo *)

Section KeyLaws.

Variable eng : Engine.

Lemma last_identity_last (infos : list Key) (k : Key) :
  last_identity (infos ++ [k]) = (get_id k, get_user_id k, get_fingerprint k).
Proof. unfold last_identity. now rewrite fold_left_app. Qed.

(** X17. When the extractor finds several identities in the file, the key
    carries the last one: its id, user id and fingerprint are those of the
    last identity, whatever came before. *)
Theorem last_identity_wins (url : string) (w : World) (key : KeyInfo)
    (infos : list Key) (k : Key) :
  let o := KeyInfo_ctor eng url w in
  result o = Ret key ->
  infos_extracted (calls o) (infos ++ [k]) ->
  key_id key = get_id k /\ user_id key = get_user_id k
  /\ fingerprint key = get_fingerprint k.
Proof.
  intros o Hres Hinfos. subst o.
  destruct (KeyInfo_ctor_cases eng url w) as [[path [c Hc]] | [_ Hnone]].
  - destruct (construction_reads eng url path c _ Hc) as [_ [Hex _]].
    pose proof (Hex _ Hinfos) as Ei.
    destruct Hc as [Hr _]. rewrite Hr in Hres.
    destruct (fst (engine_pgpReadPkts eng (Some c)) =? PGPARMOR_PUBKEY)%Z;
      [|discriminate Hres].
    injection Hres as <-. unfold key_read. cbn [key_id user_id fingerprint].
    rewrite <- Ei, last_identity_last. auto.
  - destruct Hinfos as [q Hq]. destruct (Hnone _ Hq).
Qed.

Lemma substr_file_url (p : string) : substr ("file://" ++ p) 7 = p.
Proof.
  unfold substr. rewrite length_app.
  change 7 with (String.length "file://") at 1.
  rewrite substring_skip.
  replace (String.length "file://" + String.length p - 7) with (String.length p)
    by (simpl; lia).
  apply substring_whole.
Qed.

(** X18. A [file://] url is read as the path behind it: the construction
    from ["file://" ++ p] makes the calls of the construction from [p],
    leaves the same world and gives the same outcome; only the reference
    string kept in the key, or in the [KeyImportError], differs. *)
Theorem file_url_is_its_path (p : string) (w : World) :
  is_url eng ("file://" ++ p) = true ->
  is_url eng p = false ->
  let o1 := KeyInfo_ctor eng ("file://" ++ p) w in
  let o2 := KeyInfo_ctor eng p w in
  result o1 = for_reference ("file://" ++ p) (result o2)
  /\ calls o1 = calls o2
  /\ world o1 = world o2.
Proof.
  intros H1 H2 o1 o2. subst o1 o2.
  assert (Hs : starts_with ("file://" ++ p) "file://" = true)
    by (apply starts_with_spec; exists p; reflexivity).
  rewrite (KeyInfo_ctor_local eng _ w (or_intror Hs)), H1, substr_file_url.
  rewrite (KeyInfo_ctor_local eng p w (or_introl H2)), H2.
  rewrite !KeyInfo_read_run.
  destruct (files w p) as [c|]; cbn [result world calls]; [|auto].
  destruct (fst (engine_pgpReadPkts eng (Some c)) =? PGPARMOR_PUBKEY)%Z;
    cbn [for_reference]; auto.
Qed.

(** X19. For a reference that is a path or a [file://] url the construction
    leaves the world as it was, makes no temporary file and downloads
    nothing. *)
Theorem local_reference_stays_local (url : string) (w : World) :
  is_url eng url = false \/ starts_with url "file://" = true ->
  let o := KeyInfo_ctor eng url w in
  world o = w /\ stays_local (calls o).
Proof.
  intros Hl o. subst o.
  rewrite (KeyInfo_ctor_local eng url w Hl), KeyInfo_read_run.
  destruct (files w _) as [c|]; cbn [world calls].
  - split; [reflexivity|]. intros e He. unfold read_calls in He. simpl in He.
    repeat (destruct He as [<- | He]; [exact I|]). destruct He.
  - split; [reflexivity|]. intros e [<- | []]. exact I.
Qed.

Lemma write_file_other (p q : string) (c : option (list byte))
    (f : string -> option (list byte)) :
  q <> p -> write_file p c f q = f q.
Proof.
  intros H. unfold write_file. apply String.eqb_neq in H. now rewrite H.
Qed.

(** X20. Whatever the reference and on every way out, the construction
    leaves the log mask and the rpm database as they were, and no file but
    the temporary one is created, changed or removed. *)
Theorem constructor_touches_only_its_temp_file (url : string) (w : World) :
  let o := KeyInfo_ctor eng url w in
  log_mask (world o) = log_mask w
  /\ rpmdb (world o) = rpmdb w
  /\ (forall q, q <> engine_mkstemp eng "rpmkey" ->
        files (world o) q = files w q).
Proof.
  intros o. subst o.
  destruct (local_or_remote eng url) as [Hl | Hr].
  - rewrite (KeyInfo_ctor_local eng url w Hl), KeyInfo_read_run.
    destruct (files w _); cbn [world]; auto.
  - rewrite (KeyInfo_ctor_remote eng url w Hr).
    destruct (engine_fetch eng url) as [c|];
      cbn [world set_files log_mask rpmdb files];
      (split; [reflexivity|]; split; [reflexivity|]);
      intros q Hq; now rewrite !write_file_other by exact Hq.
Qed.


(** X22. The [key_path] of a key built from a remote reference names the
    temporary file, and that file no longer exists when the constructor
    returns the key. *)
Theorem remote_key_path_dangles (url : string) (w : World) (key : KeyInfo) :
  remote_url eng url ->
  let o := KeyInfo_ctor eng url w in
  result o = Ret key ->
  key_path key = engine_mkstemp eng "rpmkey"
  /\ get_url key = url
  /\ files (world o) (key_path key) = None.
Proof.
  intros Hr o Hres. subst o.
  rewrite (KeyInfo_ctor_remote eng url w Hr) in *.
  destruct (engine_fetch eng url) as [c|]; cbn [result world] in *;
    [|discriminate Hres].
  destruct (fst (engine_pgpReadPkts eng (Some c)) =? PGPARMOR_PUBKEY)%Z;
    [|discriminate Hres].
  injection Hres as <-. unfold key_read, get_url. cbn [key_path key_url].
  split; [reflexivity|]. split; [reflexivity|].
  unfold set_files. cbn [files]. apply write_file_same.
Qed.

End KeyLaws.

(* ------------------------------------------------------------------ *)
(** *** Runs of the further properties *)

Lemma scan_order_irrelevant_witness :
  scan_rpm_logs "/pkgs/a.rpm"
    [ "    Header RSA signature: NOTFOUND"; "    Payload SHA256 digest: BAD" ]
    false false false
  = scan_rpm_logs "/pkgs/a.rpm"
      [ "    Payload SHA256 digest: BAD"; "    Header RSA signature: NOTFOUND" ]
      false false false.
Proof.
  apply (scan_order_irrelevant "/pkgs/a.rpm"). apply perm_swap.
Defined.

Lemma ok_lines_change_nothing_witness :
  scan_rpm_logs "/pkgs/a.rpm"
    ([ "    Header RSA signature: NOTFOUND" ]
     ++ "    Header SHA256 digest: OK" :: [ "    MD5 digest: OK" ])
    false false false
  = scan_rpm_logs "/pkgs/a.rpm"
      ([ "    Header RSA signature: NOTFOUND" ] ++ [ "    MD5 digest: OK" ])
      false false false.
Proof.
  apply (ok_lines_change_nothing "/pkgs/a.rpm").
  - exists "    Header SHA256 digest"%string. reflexivity.
  - apply find_none. reflexivity.
Defined.

Lemma empty_path_always_failed_witness :
  get_package_path pkg_nowhere = EmptyString
  /\ result (check_package_signature failing_engine base_root pkg_nowhere world_empty)
     = Ret FAILED.
Proof.
  split; [reflexivity|].
  apply (empty_path_always_failed failing_engine base_root pkg_nowhere world_empty
           elevated_mask 1 EmptyString
           [ "    Header V4 RSA/SHA256 Signature, key ID 773dd1ba: NOKEY";
             "    Header SHA256 digest: OK" ]).
  - reflexivity.
  - vm_compute. auto 10.
  - discriminate.
Defined.

Lemma short_id_collision_witness :
  key_present demo_engine base_root demo_key world_trusting
  = key_present demo_engine base_root lookalike_key world_trusting
  /\ result (import_key demo_engine base_root lookalike_key world_trusting) = Ret false.
Proof.
  destruct (short_id_collision demo_engine base_root demo_key lookalike_key
              world_trusting "5e7a9b3c" "ffffffff" "773dd1ba"
              eq_refl eq_refl eq_refl) as [Hp Hi].
  split; [exact Hp|].
  exact (proj1 (Hi eq_refl demo_key_trusted)).
Defined.

Lemma iterator_is_always_freed_witness :
  engine_set_root demo_engine (installroot base_root) = 0%Z
  /\ exists n,
       iterates (calls (key_present demo_engine base_root demo_key world_trusting)) n
       /\ iterates (calls (import_key demo_engine base_root demo_key world_trusting)) n
       /\ 1 <= n <= S (List.length (pubkey_records (rpmdb world_trusting))).
Proof.
  split; [reflexivity|].
  exact (iterator_is_always_freed demo_engine base_root demo_key world_trusting eq_refl).
Defined.

Lemma last_identity_wins_witness :
  exists key,
    result (KeyInfo_ctor two_identity_engine "/etc/pki/demo.asc" world_empty) = Ret key
    /\ key_id key = get_id second_identity.
Proof.
  eexists. split; [reflexivity|].
  refine (proj1 (last_identity_wins two_identity_engine "/etc/pki/demo.asc"
                   world_empty _ [demo_identity] second_identity eq_refl _)).
  exists "/etc/pki/demo.asc"%string. vm_compute. auto 10.
Defined.

Lemma file_url_is_its_path_witness :
  result (KeyInfo_ctor demo_engine "file:///etc/pki/demo.asc" world_empty)
  = for_reference "file:///etc/pki/demo.asc"
      (result (KeyInfo_ctor demo_engine "/etc/pki/demo.asc" world_empty)).
Proof.
  exact (proj1 (file_url_is_its_path demo_engine "/etc/pki/demo.asc" world_empty
                  eq_refl eq_refl)).
Defined.

Lemma local_reference_stays_local_witness :
  world (KeyInfo_ctor demo_engine "/etc/pki/demo.asc" world_empty) = world_empty.
Proof.
  exact (proj1 (local_reference_stays_local demo_engine "/etc/pki/demo.asc"
                  world_empty (or_introl eq_refl))).
Defined.

Lemma remote_key_path_dangles_witness :
  exists key,
    result (KeyInfo_ctor demo_engine "https://keys.example.org/demo.asc" world_empty)
    = Ret key
    /\ files (world (KeyInfo_ctor demo_engine "https://keys.example.org/demo.asc"
                       world_empty)) (key_path key) = None.
Proof.
  eexists. split; [reflexivity|].
  exact (proj2 (proj2 (remote_key_path_dangles demo_engine
                         "https://keys.example.org/demo.asc" world_empty _
                         demo_url_remote eq_refl))).
Defined.
